(** * EmissionExplorer (app.py): baseline CO2 formula, synthetic training
      table, feature-vector assembly and feature-importance ranking.

    Python floats are IEEE 754 binary64 values.  They are modelled with the
    specification floats of the Standard Library ([spec_float], precision 53,
    infinite exponent 1024), so every arithmetic step below rounds exactly as
    the interpreter does and can be evaluated inside Rocq. *)

From Stdlib Require Import ZArith QArith Qabs List String Ascii Bool Lia.
From Stdlib Require Import Permutation Sorted.
From Stdlib Require Import Floats.SpecFloat.
Import ListNotations.

Local Open Scope string_scope.
Local Open Scope Z_scope.

(** ** Python exceptions and the error monad of a [try] body *)

Inductive exn : Type :=
| KeyError (key : string)
| ZeroDivisionError
| OverflowError
| ValueError
| IndexError
| LibraryError (what : string).

(** [inl e]: the computation raised [e]; [inr a]: it returned [a]. *)
Definition result (A : Type) : Type := (exn + A)%type.

Definition ret {A} (a : A) : result A := inr a.
Definition raise {A} (e : exn) : result A := inl e.
Definition bind {A B} (c : result A) (k : A -> result B) : result B :=
  match c with
  | inl e => inl e
  | inr a => k a
  end.

Notation "x <- c ;; k" := (bind c (fun x => k))
  (at level 61, c at next level, right associativity).

(** ** Binary64 arithmetic *)

Module PyFloat.

Definition float : Type := spec_float.

Definition prec : Z := 53.
Definition emax : Z := 1024.

Definition mul : float -> float -> float := SFmul prec emax.
Definition div : float -> float -> float := SFdiv prec emax.
Definition add : float -> float -> float := SFadd prec emax.
Definition sub : float -> float -> float := SFsub prec emax.
Definition abs : float -> float := SFabs.
Definition ltb : float -> float -> bool := SFltb.
Definition leb : float -> float -> bool := SFleb.
Definition eqb : float -> float -> bool := SFeqb.

Definition is_nan (x : float) : bool :=
  match x with S754_nan => true | _ => false end.

Definition is_infinite (x : float) : bool :=
  match x with S754_infinity _ => true | _ => false end.

Definition is_finite (x : float) : bool :=
  match x with S754_zero _ | S754_finite _ _ _ => true | _ => false end.

(** Conversion of a Python [int]: the nearest double, ties to even; an
    integer beyond the double range comes out as an infinity here and is
    turned into [OverflowError] by [float_of_int]. *)
Definition of_int (z : Z) : float := binary_normalize prec emax z 0 false.

Definition float_of_int (z : Z) : result float :=
  let x := of_int z in
  if is_infinite x then raise OverflowError else ret x.

(** The double nearest to the rational [(-1)^s * p / q] (ties to even):
    a correctly rounded division of two integers. *)
Definition nearest (s : bool) (p q : positive) : float :=
  SFdiv prec emax (S754_finite s p 0) (S754_finite false q 0).

Definition pow10 (k : nat) : positive := Z.to_pos (10 ^ Z.of_nat k).

(** A decimal literal of the source, [n * 10^-k]: [lit 17 2] is [0.17]. *)
Definition lit (n : positive) (k : nat) : float := nearest false n (pow10 k).

(** Nearest integer to [p / q] for [p >= 0], ties to even. *)
Definition round_half_even (p : Z) (q : positive) : Z :=
  let (k, r) := Z.div_eucl p (Zpos q) in
  match 2 * r ?= Zpos q with
  | Lt => k
  | Gt => k + 1
  | Eq => if Z.even k then k else k + 1
  end.

(** The builtin [round(x, ndigits)] on a float, for [ndigits >= 0]: the
    exact binary value of [x] is rounded to [ndigits] decimal places, ties
    to even, and the decimal obtained is converted back to the nearest
    double; the sign of [x] is kept (also on a zero result); NaN and the
    infinities are returned unchanged. *)
Definition round (x : float) (ndigits : nat) : float :=
  match x with
  | S754_finite s m e =>
      let scale := pow10 ndigits in
      let num := Zpos m * Zpos scale * 2 ^ Z.max e 0 in
      let den := Z.to_pos (2 ^ Z.max (- e) 0) in
      match round_half_even num den with
      | Zpos n => nearest s n scale
      | _ => S754_zero s
      end
  | _ => x
  end.

(** [a / b] for a float [a] and an [int] [b]: the divisor is converted
    first, and a zero divisor raises instead of giving an infinity. *)
Definition truediv_int (a : float) (b : Z) : result float :=
  y <- float_of_int b ;;
  if b =? 0 then raise ZeroDivisionError else ret (div a y).

(** Exact rational value of a finite double (0 on NaN and infinities). *)
Definition to_Q (x : float) : Q :=
  match x with
  | S754_finite s m e =>
      let v := if 0 <=? e then inject_Z (Zpos m * 2 ^ e)
               else Qmake (Zpos m) (Z.to_pos (2 ^ (- e))) in
      if s then Qopp v else v
  | _ => 0%Q
  end.

End PyFloat.

Import PyFloat.

(** ** Dictionaries with string keys

    A dict literal is kept as the list of its items; [d[k]] raises
    [KeyError] on a missing key. *)

Definition dict (V : Type) : Type := list (string * V).

Fixpoint dict_get {V} (d : dict V) (k : string) : option V :=
  match d with
  | [] => None
  | (k', v) :: d' => if String.eqb k' k then Some v else dict_get d' k
  end.

Definition getitem {V} (d : dict V) (k : string) : result V :=
  match dict_get d k with
  | Some v => ret v
  | None => raise (KeyError k)
  end.

(** ** The baseline formula: [calculate_co2_footprint] *)

Module Baseline.

(** The global table of emission factors (kg CO2 per km). *)
Definition emission_factors : dict float :=
  [ ("Auto", lit 17 2);
    ("Flugzeug", lit 24 2);
    ("Zug", lit 4 2);
    ("Bus", lit 7 2);
    ("Motorrad", lit 11 2) ].

(** The table of distance factors local to [calculate_co2_footprint]
    (it shadows a global one with the same items). *)
Definition distance_factors : dict float :=
  [ ("Auto", lit 12 1);
    ("Flugzeug", lit 10 1);
    ("Zug", lit 13 1);
    ("Bus", lit 13 1);
    ("Motorrad", lit 12 1) ].

(** The items of [transport_options], in the order of the sidebar. *)
Inductive mode : Type := Car | Plane | Train | Bus | Motorcycle.

Definition mode_name (m : mode) : string :=
  match m with
  | Car => "Auto"
  | Plane => "Flugzeug"
  | Train => "Zug"
  | Bus => "Bus"
  | Motorcycle => "Motorrad"
  end.

Definition transport_options : list string :=
  map mode_name [Car; Plane; Train; Bus; Motorcycle].

(** One dictionary appended to [results]; the keys are
    "Transportmittel", "Distanz (km)", "CO2 pro Person (kg)" and
    "Gesamt CO2 (kg)". *)
Record row : Type := {
  Transportmittel : string;
  Distanz_km : float;
  CO2_pro_Person_kg : float;
  Gesamt_CO2_kg : float
}.

(** The body of the [for transport in transports] loop. *)
Definition loop_body (direct_distance : float) (num_travelers : Z)
           (transport : string) : result row :=
  factor <- getitem distance_factors transport ;;
  let distance := mul direct_distance factor in
  co2_per_km <- getitem emission_factors transport ;;
  let total_co2 := mul distance co2_per_km in
  co2_per_person <- truediv_int total_co2 num_travelers ;;
  ret {| Transportmittel := transport;
         Distanz_km := round distance 2;
         CO2_pro_Person_kg := round co2_per_person 2;
         Gesamt_CO2_kg := round total_co2 2 |}.

(** The loop itself: [results] grows by one row per iteration and the first
    exception leaves the loop. *)
Fixpoint for_transports (direct_distance : float) (num_travelers : Z)
         (transports : list string) (results : list row)
  : result (list row) :=
  match transports with
  | [] => ret results
  | transport :: rest =>
      r <- loop_body direct_distance num_travelers transport ;;
      for_transports direct_distance num_travelers rest (results ++ [r])
  end.

(** What the geocoder hands back for a place that it found. *)
Record Location : Type := { latitude : float; longitude : float }.

Definition coords : Type := (float * float)%type.

(** The two collaborators from geopy.  [geocode] answers [None] for a
    place it cannot resolve; both calls may raise (network failure,
    coordinates out of range). *)
Class Geo : Type := {
  geocode : string -> result (option Location);
  geodesic_kilometers : coords -> coords -> result float
}.

(** The two messages handed to [st.error]. *)
Inductive error_message : Type :=
| Standorte_nicht_gefunden
| Fehler_bei_der_Berechnung (e : exn).

Definition footprint : Type := (list row * float * coords * coords)%type.

(** What a call leaves behind: the value returned ([None] for Python's
    [None]) and the messages shown with [st.error], oldest first. *)
Record outcome : Type := {
  returned : option footprint;
  shown : list error_message
}.

Section WithGeo.
Context {G : Geo}.

(** The body of the [try] block.  [inr None] stands for the early
    [return None] that follows the "not found" message. *)
Definition try_block (start end_ : string) (transports : list string)
           (num_travelers : Z) : result (option footprint) :=
  start_location <- geocode start ;;
  end_location <- geocode end_ ;;
  match start_location, end_location with
  | Some sl, Some el =>
      let start_coords := (latitude sl, longitude sl) in
      let end_coords := (latitude el, longitude el) in
      km <- geodesic_kilometers start_coords end_coords ;;
      let direct_distance := round km 2 in
      results <- for_transports direct_distance num_travelers transports [] ;;
      ret (Some (results, direct_distance, start_coords, end_coords))
  | _, _ => ret None
  end.

Definition calculate_co2_footprint (start end_ : string)
           (transports : list string) (num_travelers : Z) : outcome :=
  match try_block start end_ transports num_travelers with
  | inr (Some res) => {| returned := Some res; shown := [] |}
  | inr None => {| returned := None; shown := [Standorte_nicht_gefunden] |}
  | inl e => {| returned := None; shown := [Fehler_bei_der_Berechnung e] |}
  end.

End WithGeo.

(** The factor tables as the specification words them, by mode. *)
Definition distance_factor (m : mode) : float :=
  match m with
  | Car => lit 12 1
  | Plane => lit 10 1
  | Train => lit 13 1
  | Bus => lit 13 1
  | Motorcycle => lit 12 1
  end.

Definition emission_factor (m : mode) : float :=
  match m with
  | Car => lit 17 2
  | Plane => lit 24 2
  | Train => lit 4 2
  | Bus => lit 7 2
  | Motorcycle => lit 11 2
  end.

(** The row that the rounded formula gives for a mode. *)
Definition rounded_row (direct_distance : float) (num_travelers : Z)
           (m : mode) : row :=
  let distance := mul direct_distance (distance_factor m) in
  let total_co2 := mul distance (emission_factor m) in
  {| Transportmittel := mode_name m;
     Distanz_km := round distance 2;
     CO2_pro_Person_kg := round (div total_co2 (of_int num_travelers)) 2;
     Gesamt_CO2_kg := round total_co2 2 |}.

(** A geocoder for examples: it knows two places, and the distance
    collaborator answers a fixed number of kilometres. *)
Definition gazetteer : dict Location :=
  [ ("Zürich, Schweiz",
     {| latitude := lit 473744 4; longitude := lit 85410 4 |});
    ("Berlin, Deutschland",
     {| latitude := lit 525170 4; longitude := lit 133889 4 |}) ].

Definition fixed_geo (km : float) : Geo :=
  {| geocode := fun place => ret (dict_get gazetteer place);
     geodesic_kilometers := fun _ _ => ret km |}.

(** A geocoder whose service answers the first request, finding nothing
    for "Atlantis", and cannot be reached for any other place. *)
Definition unreachable_geo : Geo :=
  {| geocode := fun place =>
       if String.eqb place "Atlantis" then ret None
       else raise (LibraryError "GeocoderUnavailable");
     geodesic_kilometers := fun _ _ => ret (of_int 100) |}.

End Baseline.

(** ** Data frames and the two library interfaces *)

(** A cell of a data frame: numpy keeps integers, doubles and booleans in
    columns of their own type. *)
Inductive cell : Type :=
| IntCell (z : Z)
| FloatCell (x : float)
| BoolCell (b : bool).

(** A data frame, column by column and in column order. *)
Definition frame : Type := list (string * list cell).

Definition columns_of (fr : frame) : list string := map fst fr.

Fixpoint frame_get (fr : frame) (col : string) : option (list cell) :=
  match fr with
  | [] => None
  | (c, v) :: fr' => if String.eqb c col then Some v else frame_get fr' col
  end.

(** [fr[col] = v]: an existing column is overwritten in place, a new one is
    appended on the right. *)
Fixpoint setitem (fr : frame) (col : string) (v : list cell) : frame :=
  match fr with
  | [] => [(col, v)]
  | (c, w) :: fr' =>
      if String.eqb c col then (c, v) :: fr' else (c, w) :: setitem fr' col v
  end.

(** [col in fr.columns]. *)
Definition has_column (fr : frame) (col : string) : bool :=
  match frame_get fr col with Some _ => true | None => false end.

(** [fr[cols]] for a list of labels: the named columns in the order of the
    list, [KeyError] on a label that is not a column. *)
Fixpoint select (fr : frame) (cols : list string) : result frame :=
  match cols with
  | [] => ret []
  | c :: cols' =>
      match frame_get fr c with
      | None => raise (KeyError c)
      | Some v => rest <- select fr cols' ;; ret ((c, v) :: rest)
      end
  end.

(** scikit-learn, as far as the program uses it. *)
Class Sklearn : Type := {
  estimator : Type;
  train_test_split :
    frame -> list float -> float -> Z -> frame * frame * list float * list float;
  fit : Z -> Z -> frame -> list float -> result estimator;
  predict : estimator -> frame -> result (list float);
  mean_absolute_error : list float -> list float -> result float;
  feature_importances_ : estimator -> list float;
  feature_names_in_ : estimator -> list string
}.


(** numpy's global random stream: [seed] replaces the state, every draw reads
    and advances it. *)
Class NumpyRandom : Type := {
  rng_state : Type;
  seed : Z -> rng_state;
  uniform : float -> float -> rng_state -> float * rng_state;
  randint : Z -> Z -> rng_state -> Z * rng_state;
  choice : list string -> rng_state -> string * rng_state;
  normal : float -> float -> rng_state -> float * rng_state
}.

(** What numpy documents about the draws: [uniform] stays between its
    bounds, [randint] answers an integer of the half-open interval and
    [choice] an element of its argument. *)
Record numpy_contract (R : NumpyRandom) : Prop := {
  uniform_range : forall low high s,
    leb low high = true ->
    leb low (fst (uniform low high s)) = true /\
    leb (fst (uniform low high s)) high = true;
  randint_range : forall low high s,
    low < high -> low <= fst (randint low high s) < high;
  choice_member : forall options s,
    options <> [] -> In (fst (choice options s)) options
}.

(** ** The synthetic training table and the estimator: [train_co2_model] *)

Module Training.

(** An array of [size] successive draws. *)
Fixpoint draws {S A : Type} (size : nat) (one : S -> A * S) (s : S)
  : list A * S :=
  match size with
  | O => ([], s)
  | S size' =>
      let (x, s1) := one s in
      let (xs, s2) := draws size' one s1 in
      (x :: xs, s2)
  end.

(** Element-wise operation on two arrays of one shape. *)
Fixpoint zip_with {A B C : Type} (f : A -> B -> C) (xs : list A)
         (ys : list B) : list C :=
  match xs, ys with
  | x :: xs', y :: ys' => f x y :: zip_with f xs' ys'
  | _, _ => []
  end.

(** [arr[mask] = v]. *)
Definition assign_where (arr : list float) (mask : list bool) (v : float)
  : list float :=
  zip_with (fun x (b : bool) => if b then v else x) arr mask.

(** [arr == s] on an array of strings. *)
Definition equals (arr : list string) (s : string) : list bool :=
  map (fun a => String.eqb a s) arr.

(** The default integer of numpy has 64 bits. *)
Definition wrap64 (z : Z) : Z := (z + 2 ^ 63) mod 2 ^ 64 - 2 ^ 63.

(** Sorted distinct values of an array of strings, in code-point order
    (the byte order of their UTF-8 encodings). *)
Fixpoint insert_sorted (s : string) (l : list string) : list string :=
  match l with
  | [] => [s]
  | t :: l' =>
      match String.compare s t with
      | Lt => s :: l
      | Eq => l
      | Gt => t :: insert_sorted s l'
      end
  end.

Definition categories (arr : list string) : list string :=
  fold_right insert_sorted [] arr.

(** [pd.get_dummies(arr, prefix=prefix)]: one indicator column per
    category that occurs, named [prefix_category]. *)
Definition get_dummies (arr : list string) (prefix : string) : frame :=
  map (fun c => (prefix ++ "_" ++ c,
                 map (fun a => BoolCell (String.eqb a c)) arr))
      (categories arr).

Definition n_samples : nat := 1000.

Definition vehicle_type_choices : list string :=
  ["Kleinwagen"; "Mittelklasse"; "SUV"; "Luxusklasse"].

Definition season_choices : list string :=
  ["Frühling"; "Sommer"; "Herbst"; "Winter"].

(** The arrays drawn from the random stream, in the order of the calls. *)
Record sample_arrays : Type := {
  distances : list float;
  vehicle_ages : list Z;
  vehicle_types : list string;
  seasons : list string;
  traffic_levels : list Z;
  noise : list float
}.

Definition type_factor_of (vehicle_types : list string) : list float :=
  let type_factor := repeat (of_int 1) (List.length vehicle_types) in
  let type_factor :=
    assign_where type_factor (equals vehicle_types "Kleinwagen") (lit 8 1) in
  let type_factor :=
    assign_where type_factor (equals vehicle_types "Mittelklasse") (lit 10 1) in
  let type_factor :=
    assign_where type_factor (equals vehicle_types "SUV") (lit 14 1) in
  assign_where type_factor (equals vehicle_types "Luxusklasse") (lit 16 1).

Definition season_factor_of (seasons : list string) : list float :=
  let season_factor := repeat (of_int 1) (List.length seasons) in
  let season_factor :=
    assign_where season_factor (equals seasons "Frühling") (lit 10 1) in
  let season_factor :=
    assign_where season_factor (equals seasons "Sommer") (lit 95 2) in
  let season_factor :=
    assign_where season_factor (equals seasons "Herbst") (lit 105 2) in
  assign_where season_factor (equals seasons "Winter") (lit 115 2).

(** The target column [y]. *)
Definition co2_emissions_of (a : sample_arrays) : list float :=
  let base_emissions := map (fun d => mul d (lit 17 2)) (distances a) in
  let age_factor :=
    map (fun v => add (of_int 1) (mul (of_int v) (lit 1 2))) (vehicle_ages a) in
  let type_factor := type_factor_of (vehicle_types a) in
  let season_factor := season_factor_of (seasons a) in
  let traffic_factor :=
    map (fun t => add (of_int 1) (mul (of_int (wrap64 (t - 1))) (lit 5 2)))
        (traffic_levels a) in
  let co2_emissions :=
    zip_with mul
      (zip_with mul
         (zip_with mul (zip_with mul base_emissions age_factor) type_factor)
         season_factor)
      traffic_factor in
  zip_with add co2_emissions (noise a).

(** The feature table [X]. *)
Definition features_of (a : sample_arrays) : frame :=
  ([ ("distance", map FloatCell (distances a));
     ("vehicle_age", map IntCell (vehicle_ages a));
     ("traffic_level", map IntCell (traffic_levels a)) ]
     ++ get_dummies (vehicle_types a) "vehicle_type"
     ++ get_dummies (seasons a) "season")%list.

Section WithLibraries.
Context {R : NumpyRandom} {K : Sklearn}.

(** The draws after [np.random.seed(42)], with the state they leave. *)
Definition generate : sample_arrays * rng_state :=
  let s := seed 42 in
  let (distances, s) :=
    draws n_samples (uniform (of_int 10) (of_int 1000)) s in
  let (vehicle_ages, s) := draws n_samples (randint 0 21) s in
  let (vehicle_types, s) := draws n_samples (choice vehicle_type_choices) s in
  let (seasons, s) := draws n_samples (choice season_choices) s in
  let (traffic_levels, s) := draws n_samples (randint 1 11) s in
  let (noise, s) :=
    draws n_samples (normal (of_int 0) (of_int 5)) s in
  ({| distances := distances; vehicle_ages := vehicle_ages;
      vehicle_types := vehicle_types; seasons := seasons;
      traffic_levels := traffic_levels; noise := noise |}, s).

(** [train_co2_model()], started in the global random state [s0]: the
    value returned (or the exception raised) and the state left behind. *)
Definition train_co2_model (s0 : rng_state)
  : result (estimator * list string) * rng_state :=
  let (a, s) := generate in
  let X := features_of a in
  let y := co2_emissions_of a in
  let '(X_train, X_test, y_train, y_test) :=
    train_test_split X y (lit 2 1) 42 in
  (model <- fit 100 42 X_train y_train ;;
   y_pred <- predict model X_test ;;
   mae <- mean_absolute_error y_test y_pred ;;
   ret (model, columns_of X),
   s).

(** The decorator [@st.cache_data]: the value of an earlier successful call
    is handed back without running the body (and without touching the
    random stream); otherwise the body runs and its value is stored. *)
Definition model_cache : Type := option (estimator * list string).

Definition cached_train_co2_model (cache : model_cache) (s0 : rng_state)
  : result (estimator * list string) * model_cache * rng_state :=
  match cache with
  | Some value => (ret value, cache, s0)
  | None =>
      let (r, s) := train_co2_model s0 in
      (r, match r with inr value => Some value | inl _ => None end, s)
  end.

(** A cache that is empty or holds what some run of the body returned. *)
Definition cache_is_trained (cache : model_cache) : Prop :=
  match cache with
  | None => True
  | Some value => exists s, fst (train_co2_model s) = inr value
  end.

End WithLibraries.

(** The per-sample formula in the words of the specification. *)
Definition type_factor (vehicle_type : string) : float :=
  if String.eqb vehicle_type "Kleinwagen" then lit 8 1
  else if String.eqb vehicle_type "Mittelklasse" then lit 10 1
  else if String.eqb vehicle_type "SUV" then lit 14 1
  else if String.eqb vehicle_type "Luxusklasse" then lit 16 1
  else of_int 1.

Definition season_factor (season : string) : float :=
  if String.eqb season "Frühling" then lit 10 1
  else if String.eqb season "Sommer" then lit 95 2
  else if String.eqb season "Herbst" then lit 105 2
  else if String.eqb season "Winter" then lit 115 2
  else of_int 1.

Definition sample_co2 (distance : float) (vehicle_age : Z)
           (vehicle_type season : string) (traffic_level : Z)
           (noise : float) : float :=
  add
    (mul
       (mul
          (mul
             (mul (mul distance (lit 17 2))
                  (add (of_int 1) (mul (lit 1 2) (of_int vehicle_age))))
             (type_factor vehicle_type))
          (season_factor season))
       (add (of_int 1) (mul (lit 5 2) (of_int (traffic_level - 1)))))
    noise.

End Training.

(** ** Prediction for one trip: [predict_co2_with_ml] *)

Module Prediction.

(** A scalar stored in a column of the one-row frame [input_data]. *)
Definition scalar (v : cell) : list cell := [v].

(** [1 if cond else 0]. *)
Definition flag (cond : bool) : cell := IntCell (if cond then 1 else 0).

(** One of the two one-hot loops: every column of [columns] that starts
    with [prefix] is set to 1 when it is the column of [category] and to 0
    otherwise. *)
Definition one_hot (prefix category : string) (columns : list string)
           (input_data : frame) : frame :=
  fold_left
    (fun fr col =>
       if String.prefix prefix col
       then setitem fr col (scalar (flag (String.eqb col (prefix ++ category))))
       else fr)
    columns input_data.

(** The third loop: every model column still missing is added as 0. *)
Definition fill_missing (columns : list string) (input_data : frame) : frame :=
  fold_left
    (fun fr col =>
       if has_column fr col then fr else setitem fr col (scalar (IntCell 0)))
    columns input_data.

(** The frame handed to [model.predict]. *)
Definition assemble (distance : float) (vehicle_age : Z)
           (vehicle_type season : string) (traffic_level : Z)
           (columns : list string) : result frame :=
  let input_data :=
    [ ("distance", [FloatCell distance]);
      ("vehicle_age", [IntCell vehicle_age]);
      ("traffic_level", [IntCell traffic_level]) ] in
  let input_data := one_hot "vehicle_type_" vehicle_type columns input_data in
  let input_data := one_hot "season_" season columns input_data in
  let input_data := fill_missing columns input_data in
  select input_data columns.

Section WithLibraries.
Context {K : Sklearn}.

Definition predict_co2_with_ml (distance : float) (vehicle_age : Z)
           (vehicle_type season : string) (traffic_level : Z)
           (model : estimator) (columns : list string) : result float :=
  input_data <-
    assemble distance vehicle_age vehicle_type season traffic_level columns ;;
  predictions <- predict model input_data ;;
  match predictions with
  | co2_prediction :: _ => ret co2_prediction
  | [] => raise IndexError
  end.

Context {R : NumpyRandom}.

(** One run of the script with the advanced analysis switched on: the
    module-level [model, feature_columns = train_co2_model()] (through the
    cache), then the prediction for the trip.  The run starts with the
    cache and the random state that the process happens to have. *)
Definition script_prediction (cache : Training.model_cache) (s0 : rng_state)
           (distance : float) (vehicle_age : Z) (vehicle_type season : string)
           (traffic_level : Z)
  : result float * Training.model_cache * rng_state :=
  let '(trained, cache', s) := Training.cached_train_co2_model cache s0 in
  (t <- trained ;;
   let '(model, feature_columns) := t in
   predict_co2_with_ml distance vehicle_age vehicle_type season
                       traffic_level model feature_columns,
   cache', s).

End WithLibraries.

(** The cell that the specification asks for under a column name. *)
Definition expected_cell (distance : float) (vehicle_age : Z)
           (vehicle_type season : string) (traffic_level : Z)
           (col : string) : cell :=
  if String.prefix "vehicle_type_" col
  then flag (String.eqb col ("vehicle_type_" ++ vehicle_type))
  else if String.prefix "season_" col
  then flag (String.eqb col ("season_" ++ season))
  else if String.eqb col "distance" then FloatCell distance
  else if String.eqb col "vehicle_age" then IntCell vehicle_age
  else if String.eqb col "traffic_level" then IntCell traffic_level
  else IntCell 0.

End Prediction.

(** ** The feature-importance table *)

Module Importance.

(** [pd.DataFrame({'Feature': ..., 'Importance': ...})]: the two columns
    must have one length. *)
Definition data_frame (features : list string) (importance : list float)
  : result (list (string * float)) :=
  if Nat.eqb (List.length features) (List.length importance)
  then ret (combine features importance)
  else raise ValueError.

(** [a] may stand before [b] in descending order; NaN goes last. *)
Definition precedes (a b : string * float) : bool :=
  leb (snd b) (snd a) || is_nan (snd b).

Fixpoint insert_descending (a : string * float) (l : list (string * float))
  : list (string * float) :=
  match l with
  | [] => [a]
  | b :: l' => if precedes a b then a :: l else b :: insert_descending a l'
  end.

(** [sort_values('Importance', ascending=False)].  The library's default
    sort is not stable, so the program does not fix the order among equal
    scores; this definition keeps the column order among them, and nothing
    stated below depends on that choice. *)
Definition sort_values_descending (rows : list (string * float))
  : list (string * float) :=
  fold_right insert_descending [] rows.

Definition feature_importance {K : Sklearn} (feature_columns : list string)
           (model : estimator) : result (list (string * float)) :=
  rows <- data_frame feature_columns (feature_importances_ model) ;;
  ret (sort_values_descending rows).

(** Exact sum of a list of scores. *)
Definition total (scores : list float) : Q :=
  fold_right (fun x acc => (to_Q x + acc)%Q) 0%Q scores.

End Importance.

(** ** Small instances of the library interfaces, for examples *)

Module Instances.

(** A random stream that always answers the lower bound, the first choice
    and [loc - scale]. *)
Definition lowest_rng : NumpyRandom :=
  {| rng_state := Z;
     seed := fun n => n;
     uniform := fun low _ s => (low, s + 1);
     randint := fun low _ s => (low, s + 1);
     choice := fun options s => (hd "" options, s + 1);
     normal := fun loc scale s => (sub loc scale, s + 1) |}.

Fixpoint names_eqb (a b : list string) : bool :=
  match a, b with
  | [], [] => true
  | x :: a', y :: b' => String.eqb x y && names_eqb a' b'
  | _, _ => false
  end.

(** An estimator that remembers the columns it was fitted on, refuses like
    scikit-learn a frame with other column names, and answers 0.17 kg per
    km of the distance column. *)
Definition checking_sklearn : Sklearn :=
  {| estimator := list string;
     train_test_split := fun X y _ _ => (X, X, y, y);
     fit := fun _ _ X _ => ret (columns_of X);
     predict := fun names fr =>
       if names_eqb (columns_of fr) names then
         match frame_get fr "distance" with
         | Some cells =>
             ret (map (fun c => match c with
                                | FloatCell d => mul d (lit 17 2)
                                | _ => of_int 0
                                end) cells)
         | None => raise (KeyError "distance")
         end
       else raise ValueError;
     mean_absolute_error := fun _ _ => ret (of_int 0);
     feature_importances_ := fun _ => [lit 375 3; lit 5 1; lit 125 3];
     feature_names_in_ := fun names => names |}.

(** A random stream that walks through the options of [choice] in turn and
    otherwise answers the lower bound and the mean. *)
Definition cycling_rng : NumpyRandom :=
  {| rng_state := Z;
     seed := fun _ => 0;
     uniform := fun low _ s => (low, s + 1);
     randint := fun low _ s => (low, s + 1);
     choice := fun options s =>
       (nth (Z.to_nat (s mod Z.of_nat (List.length options))) options "",
        s + 1);
     normal := fun loc _ s => (loc, s + 1) |}.

End Instances.

(** ** The order of doubles

    [SFcompare] on two doubles that are not NaN is the lexicographic order
    of these triples: class (infinities outermost, zeros in the middle),
    then exponent, then mantissa, the last two negated for negative
    doubles. *)

Module FloatOrder.

Definition rank (x : float) : Z * Z * Z :=
  match x with
  | S754_infinity true => (-2, 0, 0)
  | S754_finite true m e => (-1, - e, Zneg m)
  | S754_zero _ => (0, 0, 0)
  | S754_nan => (0, 0, 0)
  | S754_finite false m e => (1, e, Zpos m)
  | S754_infinity false => (2, 0, 0)
  end.

Definition lex (a b : Z * Z * Z) : comparison :=
  match fst (fst a) ?= fst (fst b) with
  | Eq => match snd (fst a) ?= snd (fst b) with
          | Eq => snd a ?= snd b
          | c => c
          end
  | c => c
  end.

(** [x] is not NaN and carries the sign bit [s]. *)
Definition signed (s : bool) (x : float) : Prop :=
  match x with
  | S754_zero s' | S754_infinity s' | S754_finite s' _ _ => s' = s
  | S754_nan => False
  end.

(** [x] is a number that is not below zero: a zero, a positive double or
    the positive infinity. *)
Definition not_negative (x : float) : Prop :=
  match x with
  | S754_zero _ => True
  | S754_infinity s | S754_finite s _ _ => s = false
  | S754_nan => False
  end.

End FloatOrder.

(** ** The result section of the script *)

Module Script.

Import Baseline.

(** [df[df["Transportmittel"] == name][column].values[0]]: the value of the
    first row with that name, [IndexError] when no row has it. *)
Definition first_value (df : list row) (name : string) (column : row -> float)
  : result float :=
  match filter (fun r => String.eqb (Transportmittel r) name) df with
  | r :: _ => ret (column r)
  | [] => raise IndexError
  end.

(** The scan behind [idxmin] and [idxmax]: NaN is skipped and the first of
    several best values wins. *)
Fixpoint idx_extreme (better : float -> float -> bool) (values : list float)
         (i : nat) (best : option (nat * float)) : option (nat * float) :=
  match values with
  | [] => best
  | x :: rest =>
      let best' :=
        if is_nan x then best
        else match best with
             | None => Some (i, x)
             | Some (_, b) => if better x b then Some (i, x) else best
             end in
      idx_extreme better rest (S i) best'
  end.

(** [column.idxmin()] and [column.idxmax()] on the default index; a column
    without a number gives no label to look up. *)
Definition idxmin (values : list float) : result nat :=
  match idx_extreme ltb values 0 None with
  | Some (i, _) => ret i
  | None => raise ValueError
  end.

Definition idxmax (values : list float) : result nat :=
  match idx_extreme (fun x b => ltb b x) values 0 None with
  | Some (i, _) => ret i
  | None => raise ValueError
  end.

(** [df.loc[i]["Transportmittel"]]. *)
Definition transport_at (df : list row) (i : nat) : result string :=
  match nth_error df i with
  | Some r => ret (Transportmittel r)
  | None => raise (KeyError "index")
  end.

(** What the section "CO2-Einsparpotential" computes. *)
Record saving : Type := {
  min_co2_transport : string;
  max_co2_transport : string;
  min_co2 : float;
  max_co2 : float;
  savings : float;
  saving_percentage : float
}.

(** The block under [if len(selected_transports) > 1]; [None] when the
    block is skipped.  The values are numpy doubles: a division by zero
    gives an infinity or NaN, not an exception. *)
Definition co2_saving (selected_transports : list string) (df : list row)
  : result (option saving) :=
  if (1 <? List.length selected_transports)%nat then
    let column := map CO2_pro_Person_kg df in
    i <- idxmin column ;;
    min_co2_transport <- transport_at df i ;;
    j <- idxmax column ;;
    max_co2_transport <- transport_at df j ;;
    min_co2 <- first_value df min_co2_transport CO2_pro_Person_kg ;;
    max_co2 <- first_value df max_co2_transport CO2_pro_Person_kg ;;
    let savings := sub max_co2 min_co2 in
    let saving_percentage := mul (div savings max_co2) (of_int 100) in
    ret (Some {| min_co2_transport := min_co2_transport;
                 max_co2_transport := max_co2_transport;
                 min_co2 := min_co2;
                 max_co2 := max_co2;
                 savings := savings;
                 saving_percentage := saving_percentage |})
  else ret None.

(** The three ways the machine-learning section can go: switched off,
    the warning that it is for cars only, or the analysis with the car
    distance, the standard value per person and the model's answer. *)
Inductive ml_outcome : Type :=
| NoAnalysis
| OnlyForCars
| Analysis (auto_distance standard_co2 ml_co2 : float).

(** The block under [if use_ml and "Auto" in selected_transports], up to
    the call of the model, and its [elif]. *)
Definition ml_section {K : Sklearn} (use_ml : bool)
           (selected_transports : list string) (df : list row)
           (vehicle_age : Z) (vehicle_type season : string)
           (traffic_level : Z) (model : estimator)
           (feature_columns : list string) : result ml_outcome :=
  if use_ml then
    if existsb (String.eqb "Auto") selected_transports then
      auto_distance <- first_value df "Auto" Distanz_km ;;
      standard_co2 <- first_value df "Auto" CO2_pro_Person_kg ;;
      ml_co2 <- Prediction.predict_co2_with_ml
                  auto_distance vehicle_age vehicle_type season traffic_level
                  model feature_columns ;;
      ret (Analysis auto_distance standard_co2 ml_co2)
    else ret OnlyForCars
  else ret NoAnalysis.

(** The four words of the explanation: [true] stands for "erhöht", [false]
    for the other word ("reduziert" for vehicle type and season, "neutral
    für" for age and traffic). *)
Definition vehicle_type_says_increase (vehicle_type : string) : bool :=
  existsb (String.eqb vehicle_type) ["SUV"; "Luxusklasse"].

Definition season_says_increase (season : string) : bool :=
  existsb (String.eqb season) ["Winter"; "Herbst"].

Definition vehicle_age_says_increase (vehicle_age : Z) : bool :=
  5 <? vehicle_age.

Definition traffic_says_increase (traffic_level : Z) : bool :=
  5 <? traffic_level.

(** [st.number_input(label, min_value=..., value=...)] with integer
    arguments: the widget starts at [value], and a number below [min_value]
    is refused, the widget keeps the number it held.  [entries] are the
    numbers typed into the widget since the page was opened, oldest first.
    (The library refuses a default below the minimum when the script
    starts; the script passes 1 for both.) *)
Definition number_input (min_value value : Z) (entries : list Z) : Z :=
  fold_left (fun held entry => if min_value <=? entry then entry else held)
            entries value.

(** [travelers = st.number_input("Anzahl der Reisenden", min_value=1,
    value=1)]. *)
Definition travelers (entries : list Z) : Z := number_input 1 1 entries.

(** [result = calculate_co2_footprint(start_point, end_point,
    selected_transports, travelers)], the only call of the function. *)
Definition script_result {G : Geo} (start_point end_point : string)
           (selected_transports : list string) (entries : list Z) : outcome :=
  calculate_co2_footprint start_point end_point selected_transports
                          (travelers entries).

(** The options of the two select boxes of the sidebar. *)
Definition vehicle_type_options : list string :=
  ["Kleinwagen"; "Mittelklasse"; "SUV"; "Luxusklasse"].

Definition season_options : list string :=
  ["Frühling"; "Sommer"; "Herbst"; "Winter"].

(** [feature_importance.head(10)], the rows of the bar chart. *)
Definition head {A} (n : nat) (rows : list A) : list A := firstn n rows.

Definition importance_chart {K : Sklearn} (feature_columns : list string)
           (model : estimator) : result (list (string * float)) :=
  ranking <- Importance.feature_importance feature_columns model ;;
  ret (head 10 ranking).

(** The factors of the training data by which age and traffic multiply the
    emissions. *)
Definition age_factor (vehicle_age : Z) : float :=
  add (of_int 1) (mul (of_int vehicle_age) (lit 1 2)).

Definition traffic_factor (traffic_level : Z) : float :=
  add (of_int 1) (mul (of_int (Training.wrap64 (traffic_level - 1))) (lit 5 2)).

End Script.

(** * Properties *)

(** ** Arithmetic examples: the literals and roundings of the interpreter *)

Example lit_1_2 : lit 12 1 = S754_finite false 5404319552844595 (-52).
Proof. reflexivity. Qed.

Example lit_0_17 : lit 17 2 = S754_finite false 6124895493223875 (-55).
Proof. reflexivity. Qed.

Example round_tie_to_even : round (lit 125 3) 2 = lit 12 2.
Proof. reflexivity. Qed.

Example round_binary_value : round (lit 2675 3) 2 = lit 267 2.
Proof. reflexivity. Qed.

Example round_805_236 : round (mul (lit 67103 2) (lit 12 1)) 2 = lit 80524 2.
Proof. reflexivity. Qed.

Example round_large_integer :
  round (S754_finite false 4503599627370497 3) 2
  = S754_finite false 4503599627370497 3.
Proof. reflexivity. Qed.

Example round_infinity : round (S754_infinity false) 2 = S754_infinity false.
Proof. reflexivity. Qed.

Example of_int_130 : of_int 130 = lit 1300 1.
Proof. reflexivity. Qed.

Example round_negative_zero :
  round (S754_finite true 1 (-10)) 2 = S754_zero true.
Proof. reflexivity. Qed.

Example truediv_by_zero : truediv_int (lit 5 0) 0 = raise ZeroDivisionError.
Proof. reflexivity. Qed.

(** [round_half_even p q] is an integer nearest to [p / q]. *)
Lemma round_half_even_nearest (p : Z) (q : positive) :
  Z.abs (2 * (p - round_half_even p q * Zpos q)) <= Zpos q.
Proof.
  unfold round_half_even.
  pose proof (Z_div_mod p (Zpos q) eq_refl) as H.
  destruct (Z.div_eucl p (Zpos q)) as [k r]. destruct H as [-> Hr].
  destruct (Z.compare_spec (2 * r) (Zpos q)); [destruct (Z.even k) | |]; lia.
Qed.

(** What [round] answers on a finite double [(-1)^s * m * 2^e]: the double
    nearest to [k / 10^ndigits], [k] being an integer nearest to
    [m * 2^e * 10^ndigits]. *)
Lemma round_finite (s : bool) (m : positive) (e : Z) (ndigits : nat) :
  exists k,
    0 <= k /\
    Z.abs (2 * (Zpos m * Zpos (pow10 ndigits) * 2 ^ Z.max e 0
                - k * 2 ^ Z.max (- e) 0))
    <= 2 ^ Z.max (- e) 0 /\
    round (S754_finite s m e) ndigits
    = match k with
      | Zpos n => nearest s n (pow10 ndigits)
      | _ => S754_zero s
      end.
Proof.
  set (num := Zpos m * Zpos (pow10 ndigits) * 2 ^ Z.max e 0).
  set (den := Z.to_pos (2 ^ Z.max (- e) 0)).
  assert (Hden : Zpos den = 2 ^ Z.max (- e) 0).
  { unfold den. rewrite Z2Pos.id; [reflexivity |].
    apply Z.pow_pos_nonneg; lia. }
  exists (round_half_even num den). split; [| split].
  - pose proof (round_half_even_nearest num den) as H.
    assert (0 <= num) by (unfold num; apply Z.mul_nonneg_nonneg;
                          [lia | apply Z.pow_nonneg; lia]).
    nia.
  - rewrite <- Hden. apply round_half_even_nearest.
  - reflexivity.
Qed.

(** ** The baseline formula *)

Import Baseline.

Lemma distance_factors_mode (m : mode) :
  getitem distance_factors (mode_name m) = ret (distance_factor m).
Proof. destruct m; reflexivity. Qed.

Lemma emission_factors_mode (m : mode) :
  getitem emission_factors (mode_name m) = ret (emission_factor m).
Proof. destruct m; reflexivity. Qed.

(** The keys of the distance table are the five names of the sidebar. *)
Lemma distance_factors_known (t : string) (x : float) :
  getitem distance_factors t = inr x -> exists m, t = mode_name m.
Proof.
  unfold getitem, distance_factors; cbn [dict_get].
  repeat match goal with
         | |- context [String.eqb ?k t] =>
             destruct (String.eqb_spec k t) as [<- | _]
         end;
    intros H; try discriminate.
  - now exists Car.
  - now exists Plane.
  - now exists Train.
  - now exists Bus.
  - now exists Motorcycle.
Qed.

Lemma truediv_int_defined (a : float) (n : Z) :
  n <> 0 -> is_infinite (of_int n) = false ->
  truediv_int a n = ret (div a (of_int n)).
Proof.
  intros Hn Hfin. unfold truediv_int, float_of_int.
  rewrite Hfin. cbn [bind ret].
  destruct (Z.eqb_spec n 0); [contradiction | reflexivity].
Qed.

Lemma truediv_int_zero (a : float) : truediv_int a 0 = raise ZeroDivisionError.
Proof. reflexivity. Qed.

Lemma loop_body_mode (direct_distance : float) (n : Z) (m : mode) :
  n <> 0 -> is_infinite (of_int n) = false ->
  loop_body direct_distance n (mode_name m)
  = ret (rounded_row direct_distance n m).
Proof.
  intros Hn Hfin. unfold loop_body.
  rewrite distance_factors_mode, emission_factors_mode. cbn [bind ret].
  rewrite (truediv_int_defined _ n Hn Hfin). reflexivity.
Qed.

Lemma loop_body_zero (direct_distance : float) (m : mode) :
  loop_body direct_distance 0 (mode_name m) = raise ZeroDivisionError.
Proof.
  unfold loop_body.
  rewrite distance_factors_mode, emission_factors_mode. reflexivity.
Qed.

(** A row that was produced belongs to one of the five modes, and the
    division went through. *)
Lemma loop_body_inv (direct_distance : float) (n : Z) (t : string) (r : row) :
  loop_body direct_distance n t = inr r ->
  exists m, t = mode_name m /\ r = rounded_row direct_distance n m.
Proof.
  unfold loop_body. intros H.
  destruct (getitem distance_factors t) as [e | f] eqn:Hd; [discriminate |].
  destruct (distance_factors_known t f Hd) as [m ->].
  rewrite distance_factors_mode in Hd. injection Hd as <-.
  rewrite emission_factors_mode in H. cbn [bind ret] in H.
  unfold truediv_int, float_of_int in H.
  destruct (is_infinite (of_int n)); [discriminate |].
  cbn [bind ret] in H.
  destruct (n =? 0); [discriminate |].
  injection H as <-. exists m. split; reflexivity.
Qed.

Lemma for_transports_modes (direct_distance : float) (n : Z) (ms : list mode) :
  n <> 0 -> is_infinite (of_int n) = false ->
  forall results,
    for_transports direct_distance n (map mode_name ms) results
    = ret (results ++ map (rounded_row direct_distance n) ms)%list.
Proof.
  intros Hn Hfin. induction ms as [| m ms IH]; intros results; cbn [map for_transports].
  - now rewrite app_nil_r.
  - rewrite (loop_body_mode _ _ _ Hn Hfin). cbn [bind ret].
    rewrite IH, <- app_assoc. reflexivity.
Qed.

Lemma for_transports_zero (direct_distance : float) (m : mode)
      (ms : list mode) (results : list row) :
  for_transports direct_distance 0 (map mode_name (m :: ms)) results
  = raise ZeroDivisionError.
Proof. cbn [map for_transports]. now rewrite loop_body_zero. Qed.

Lemma for_transports_inv (direct_distance : float) (n : Z) (ts : list string) :
  forall results rows,
    for_transports direct_distance n ts results = inr rows ->
    exists new,
      rows = (results ++ new)%list /\
      Forall2 (fun t r => exists m,
                   t = mode_name m /\ r = rounded_row direct_distance n m)
              ts new.
Proof.
  induction ts as [| t ts IH]; intros results rows H; cbn [for_transports] in H.
  - injection H as <-. exists []. split; [now rewrite app_nil_r | constructor].
  - destruct (loop_body direct_distance n t) as [e | r] eqn:Hr; [discriminate |].
    cbn [bind] in H. apply IH in H. destruct H as (new & -> & Hall).
    exists (r :: new). split.
    + now rewrite <- app_assoc.
    + constructor; [now apply loop_body_inv | exact Hall].
Qed.

(** With both places resolved and a distance delivered, the function returns
    whatever the loop produces on the rounded distance. *)
Lemma calculate_resolved {G : Geo} (start end_ : string) (sl el : Location)
      (km : float) (transports : list string) (n : Z) :
  geocode start = inr (Some sl) ->
  geocode end_ = inr (Some el) ->
  geodesic_kilometers (latitude sl, longitude sl) (latitude el, longitude el)
  = inr km ->
  calculate_co2_footprint start end_ transports n
  = match for_transports (round km 2) n transports [] with
    | inr rows =>
        {| returned := Some (rows, round km 2, (latitude sl, longitude sl),
                             (latitude el, longitude el));
           shown := [] |}
    | inl e => {| returned := None; shown := [Fehler_bei_der_Berechnung e] |}
    end.
Proof.
  intros Hs He Hkm. unfold calculate_co2_footprint, try_block.
  rewrite Hs, He. cbn [bind]. rewrite Hkm. cbn [bind].
  destruct (for_transports (round km 2) n transports []); reflexivity.
Qed.

(** Whatever is returned was computed from a distance that the collaborator
    delivered and that was rounded first. *)
Lemma calculate_returned_inv {G : Geo} (start end_ : string)
      (transports : list string) (n : Z) (rows : list row) (dd : float)
      (sc ec : coords) :
  returned (calculate_co2_footprint start end_ transports n)
  = Some (rows, dd, sc, ec) ->
  exists km,
    geodesic_kilometers sc ec = inr km /\ dd = round km 2 /\
    for_transports dd n transports [] = inr rows.
Proof.
  unfold calculate_co2_footprint, try_block.
  destruct (geocode start) as [e | [sl |]]; cbn [bind returned];
    try discriminate;
    (destruct (geocode end_) as [e | [el |]]; cbn [bind returned];
     try discriminate).
  destruct (geodesic_kilometers _ _) as [e | km] eqn:Hkm; cbn [bind returned];
    try discriminate.
  destruct (for_transports _ _ _ _) as [e | rs] eqn:Hrows; cbn [bind returned];
    try discriminate.
  intros H. injection H as <- <- <- <-. exists km. repeat split; assumption.
Qed.

(** C1 (as amended).  For every mode of the five-element enum, every direct
    distance and every traveler count of at least 1, the row of the baseline
    estimate holds the formula values rounded to two decimal places: the
    distance is round(direct * distance_factor, 2), the total is
    round((direct * distance_factor) * emission_factor, 2) and the value per
    person is round(total / travelers, 2), total and value per person being
    computed from the unrounded products.  (Only a traveler count too large
    for a double gives no row: its conversion raises.) *)
Theorem baseline_row_is_rounded_formula
        (m : mode) (direct_distance : float) (num_travelers : Z) :
  1 <= num_travelers ->
  let distance := mul direct_distance (distance_factor m) in
  let total_co2 := mul distance (emission_factor m) in
  let co2_per_person := div total_co2 (of_int num_travelers) in
  loop_body direct_distance num_travelers (mode_name m)
  = if is_infinite (of_int num_travelers) then raise OverflowError
    else ret {| Transportmittel := mode_name m;
                Distanz_km := round distance 2;
                CO2_pro_Person_kg := round co2_per_person 2;
                Gesamt_CO2_kg := round total_co2 2 |}.
Proof.
  intros Hn. cbv zeta.
  destruct (is_infinite (of_int num_travelers)) eqn:Hfin.
  - unfold loop_body.
    rewrite distance_factors_mode, emission_factors_mode. cbn [bind ret].
    unfold truediv_int, float_of_int. now rewrite Hfin.
  - rewrite loop_body_mode by (assumption || lia). reflexivity.
Qed.

Lemma baseline_row_is_rounded_formula_witness :
  1 <= 7 /\
  loop_body (lit 67103 2) 7 (mode_name Car)
  = ret {| Transportmittel := "Auto";
           Distanz_km := lit 80524 2;
           CO2_pro_Person_kg := lit 1956 2;
           Gesamt_CO2_kg := lit 13689 2 |}.
Proof.
  split; [lia |].
  rewrite (baseline_row_is_rounded_formula Car (lit 67103 2) 7);
    [reflexivity | lia].
Defined.

Example huge_traveler_count :
  loop_body (lit 67103 2) (2 ^ 1024) (mode_name Car) = raise OverflowError.
Proof. reflexivity. Qed.

(** C1 (as stated) fails on the returned row.  For a direct distance of
    27.28 km, mode Car and 2 travelers the row holds 32.74 km, 5.57 kg in
    total and 2.78 kg per person, while the products are 32.736, 5.56512
    and 2.78256: the distance is off direct * 1.2, the total is off
    distance_km * 0.17 and the value per person is off total / 2, each by
    more than 0.001. *)
Lemma baseline_row_unrounded_counterexample :
  let direct_distance := lit 2728 2 in
  let tolerance := lit 1 3 in
  let r := {| Transportmittel := "Auto";
              Distanz_km := lit 3274 2;
              CO2_pro_Person_kg := lit 278 2;
              Gesamt_CO2_kg := lit 557 2 |} in
  loop_body direct_distance 2 (mode_name Car) = inr r /\
  ltb tolerance
      (abs (sub (Distanz_km r) (mul direct_distance (distance_factor Car))))
  = true /\
  ltb tolerance
      (abs (sub (Gesamt_CO2_kg r) (mul (Distanz_km r) (emission_factor Car))))
  = true /\
  ltb tolerance
      (abs (sub (CO2_pro_Person_kg r) (div (Gesamt_CO2_kg r) (of_int 2))))
  = true.
Proof. cbv zeta. repeat split; vm_compute; reflexivity. Qed.

(** *** The traveler count

    The function has no guard of its own; the bound is set where the count
    is entered. *)

Lemma number_input_at_least (min_value value : Z) (entries : list Z) :
  min_value <= value -> min_value <= Script.number_input min_value value entries.
Proof.
  unfold Script.number_input. revert value.
  induction entries as [| entry entries IH]; intros value H;
    cbn [fold_left]; [exact H |].
  apply IH. destruct (Z.leb_spec min_value entry); assumption.
Qed.

Lemma number_input_app (min_value value : Z) (entries : list Z) (entry : Z) :
  Script.number_input min_value value (entries ++ [entry])
  = if min_value <=? entry then entry
    else Script.number_input min_value value entries.
Proof. unfold Script.number_input. now rewrite fold_left_app. Qed.

Lemma truediv_int_nonzero (a : float) (n : Z) :
  n <> 0 -> truediv_int a n <> raise ZeroDivisionError.
Proof.
  intros Hn. unfold truediv_int, float_of_int.
  destruct (is_infinite (of_int n)); cbn [bind raise ret];
    [discriminate |].
  apply Z.eqb_neq in Hn. rewrite Hn. discriminate.
Qed.

Lemma for_transports_nonzero (direct_distance : float) (n : Z)
      (transports : list string) :
  n <> 0 ->
  forall results,
    for_transports direct_distance n transports results
    <> raise ZeroDivisionError.
Proof.
  intros Hn. induction transports as [| t transports IH]; intros results;
    cbn [for_transports]; [discriminate |].
  unfold loop_body, getitem.
  destruct (dict_get distance_factors t); cbn [bind raise ret];
    [| discriminate].
  destruct (dict_get emission_factors t); cbn [bind raise ret];
    [| discriminate].
  pose proof (truediv_int_nonzero
                (mul (mul direct_distance f) f0) n Hn) as Hdiv.
  destruct (truediv_int (mul (mul direct_distance f) f0) n) as [e | q];
    cbn [bind raise ret].
  - intros H. apply Hdiv. unfold raise in H |- *.
    injection H as ->. reflexivity.
  - apply IH.
Qed.

(** C2.  The traveler count that reaches the baseline estimate is the
    value of the input widget with minimum 1, and the widget refuses every
    number below 1: it keeps the count it held (1 at the start).  So the
    count is at least 1 whatever is typed; with both places resolved the
    call made by the script never reports a division by zero, and for
    known modes and a count that a double can hold it returns every row
    with the total divided by that count of at least 1. *)
Theorem traveler_count_below_one_is_refused
        {G : Geo} (start end_ : string) (sl el : Location) (km : float)
        (selected_transports : list string) (entries : list Z) :
  geocode start = inr (Some sl) ->
  geocode end_ = inr (Some el) ->
  geodesic_kilometers (latitude sl, longitude sl) (latitude el, longitude el)
  = inr km ->
  let n := Script.travelers entries in
  1 <= n /\
  (forall entry, entry < 1 -> Script.travelers (entries ++ [entry]) = n) /\
  (forall entry, 1 <= entry -> Script.travelers (entries ++ [entry]) = entry)
  /\
  shown (Script.script_result start end_ selected_transports entries)
  <> [Fehler_bei_der_Berechnung ZeroDivisionError] /\
  (forall ms,
      selected_transports = map mode_name ms ->
      is_infinite (of_int n) = false ->
      Script.script_result start end_ selected_transports entries
      = {| returned :=
             Some (map (rounded_row (round km 2) n) ms, round km 2,
                   (latitude sl, longitude sl), (latitude el, longitude el));
           shown := [] |}).
Proof.
  intros Hs He Hkm. cbv zeta.
  assert (Hn : 1 <= Script.travelers entries)
    by (apply number_input_at_least; lia).
  split; [exact Hn |].
  split.
  { intros entry Hentry. unfold Script.travelers.
    rewrite number_input_app.
    destruct (Z.leb_spec 1 entry); [lia | reflexivity]. }
  split.
  { intros entry Hentry. unfold Script.travelers.
    rewrite number_input_app.
    destruct (Z.leb_spec 1 entry); [reflexivity | lia]. }
  unfold Script.script_result.
  rewrite (calculate_resolved _ _ _ _ _ _ _ Hs He Hkm).
  split.
  - pose proof (for_transports_nonzero (round km 2) (Script.travelers entries)
                  selected_transports ltac:(lia) []) as Hz.
    destruct (for_transports _ _ _ _) as [e | rows]; cbn [shown];
      [| discriminate].
    intros H. apply Hz. injection H as ->. reflexivity.
  - intros ms -> Hfin.
    rewrite for_transports_modes by (assumption || lia). reflexivity.
Qed.

Lemma traveler_count_below_one_is_refused_witness :
  Script.travelers [3; 0; -2] = 3 /\
  @Script.script_result (fixed_geo (of_int 100))
     "Zürich, Schweiz" "Berlin, Deutschland" ["Auto"] [3; 0; -2]
  = {| returned :=
         Some ([ rounded_row (of_int 100) 3 Car ], of_int 100,
               (lit 473744 4, lit 85410 4), (lit 525170 4, lit 133889 4));
       shown := [] |}.
Proof.
  destruct (@traveler_count_below_one_is_refused (fixed_geo (of_int 100))
              "Zürich, Schweiz" "Berlin, Deutschland"
              {| latitude := lit 473744 4; longitude := lit 85410 4 |}
              {| latitude := lit 525170 4; longitude := lit 133889 4 |}
              (of_int 100) ["Auto"] [3; 0; -2]
              eq_refl eq_refl eq_refl)
    as (_ & _ & _ & _ & Hrows).
  split; [reflexivity |].
  exact (Hrows [Car] eq_refl eq_refl).
Defined.

(** Inside the function nothing stops a count below 1, which only a caller
    other than the script could pass: with both places resolved and only
    known modes selected, a count of 0 and at least one mode makes the
    division raise, and a negative count that a double can hold gives every
    row with the total divided by that count. *)
Lemma count_below_one_inside_function
      {G : Geo} (start end_ : string) (sl el : Location) (km : float)
      (ms : list mode) (num_travelers : Z) :
  geocode start = inr (Some sl) ->
  geocode end_ = inr (Some el) ->
  geodesic_kilometers (latitude sl, longitude sl) (latitude el, longitude el)
  = inr km ->
  num_travelers < 1 ->
  (num_travelers = 0 -> ms <> [] ->
   calculate_co2_footprint start end_ (map mode_name ms) num_travelers
   = {| returned := None;
        shown := [Fehler_bei_der_Berechnung ZeroDivisionError] |})
  /\
  (num_travelers < 0 -> is_infinite (of_int num_travelers) = false ->
   calculate_co2_footprint start end_ (map mode_name ms) num_travelers
   = {| returned :=
          Some (map (rounded_row (round km 2) num_travelers) ms, round km 2,
                (latitude sl, longitude sl), (latitude el, longitude el));
        shown := [] |}).
Proof.
  intros Hs He Hkm Hlt. split.
  - intros -> Hms. rewrite (calculate_resolved _ _ _ _ _ _ _ Hs He Hkm).
    destruct ms as [| m ms]; [contradiction |].
    now rewrite for_transports_zero.
  - intros Hneg Hfin. rewrite (calculate_resolved _ _ _ _ _ _ _ Hs He Hkm).
    rewrite for_transports_modes by (assumption || lia). reflexivity.
Qed.

Example zero_travelers :
  @calculate_co2_footprint (fixed_geo (of_int 100))
     "Zürich, Schweiz" "Berlin, Deutschland" ["Auto"; "Zug"] 0
  = {| returned := None;
       shown := [Fehler_bei_der_Berechnung ZeroDivisionError] |}.
Proof. reflexivity. Qed.

Example unknown_mode :
  @calculate_co2_footprint (fixed_geo (of_int 100))
     "Zürich, Schweiz" "Berlin, Deutschland" ["Auto"; "Fahrrad"] 1
  = {| returned := None;
       shown := [Fehler_bei_der_Berechnung (KeyError "Fahrrad")] |}.
Proof. reflexivity. Qed.

(** C4 (as stated) fails on the message.  The start is not found and the
    lookup of the end, which is made before the result of the first is
    looked at, raises: the function returns nothing, but the error it shows
    is the generic one with that exception, not "locations not found". *)
Lemma start_not_found_end_raises_counterexample :
  let G := unreachable_geo in
  let out :=
    calculate_co2_footprint "Atlantis" "Berlin, Deutschland" ["Auto"] 1 in
  geocode "Atlantis" = inr None /\
  out = {| returned := None;
           shown := [Fehler_bei_der_Berechnung
                       (LibraryError "GeocoderUnavailable")] |} /\
  shown out <> [Standorte_nicht_gefunden].
Proof. cbv zeta. repeat split. discriminate. Qed.

(** C4 (as amended).  If the geocoder finds no place for the start or for
    the end, the function returns nothing (no comparison rows, no partial
    result), whatever modes and traveler count were given, and shows one
    error: the "locations not found" message when both lookups answered,
    and the generic message with the exception when the other lookup
    raised. *)
Theorem location_not_found
        {G : Geo} (start end_ : string) (transports : list string)
        (num_travelers : Z) :
  geocode start = inr None \/ geocode end_ = inr None ->
  let out := calculate_co2_footprint start end_ transports num_travelers in
  returned out = None /\
  ((exists start_location end_location,
       geocode start = inr start_location /\
       geocode end_ = inr end_location) ->
   shown out = [Standorte_nicht_gefunden]) /\
  (forall e,
      geocode start = inl e \/ geocode end_ = inl e ->
      shown out = [Fehler_bei_der_Berechnung e]).
Proof.
  intros Hnone. cbv zeta. unfold calculate_co2_footprint, try_block.
  destruct (geocode start) as [e1 | [sl |]] eqn:Hs;
    destruct (geocode end_) as [e2 | [el |]] eqn:He; cbn [bind ret];
    try (destruct Hnone as [H | H]; discriminate H);
    (split; [reflexivity |]); cbn [shown];
    (split;
     [ intros (a & b & Ha & Hb); try discriminate; reflexivity
     | intros e [H | H]; try discriminate H; now injection H as -> ]).
Qed.

Lemma location_not_found_witness :
  let G := fixed_geo (of_int 100) in
  (geocode "Atlantis" = inr None \/ geocode "Berlin, Deutschland" = inr None)
  /\
  returned (calculate_co2_footprint "Atlantis" "Berlin, Deutschland"
                                    ["Auto"; "Zug"] 1) = None /\
  shown (calculate_co2_footprint "Atlantis" "Berlin, Deutschland"
                                 ["Auto"; "Zug"] 1)
  = [Standorte_nicht_gefunden].
Proof.
  cbv zeta. split; [left; reflexivity |].
  destruct (@location_not_found (fixed_geo (of_int 100))
              "Atlantis" "Berlin, Deutschland" ["Auto"; "Zug"] 1
              (or_introl eq_refl)) as (Hnone & Hboth & _).
  split; [exact Hnone |].
  apply Hboth. do 2 eexists. split; reflexivity.
Defined.

(** Without an answer from the geocoder the message is the generic one:
    an exception of either lookup is caught in the same [try]. *)
Lemma geocoder_exception {G : Geo} (start end_ : string)
      (transports : list string) (n : Z) (e : exn) :
  geocode start = inl e ->
  calculate_co2_footprint start end_ transports n
  = {| returned := None; shown := [Fehler_bei_der_Berechnung e] |}.
Proof.
  intros Hs. unfold calculate_co2_footprint, try_block. now rewrite Hs.
Qed.

(** C6.  With both places resolved: a direct distance of 100 km gives, for
    the train and 1 traveler, 130.0 km, 5.2 kg in total and 5.2 kg per
    person, and for the plane 100.0 km and 24.0 kg in total; a direct
    distance of 50 km gives, for the car and 2 travelers, 60.0 km, 10.2 kg
    in total and 5.1 kg per person. *)
Theorem scenario_rows
        {G : Geo} (start end_ : string) (sl el : Location) (km : float) :
  geocode start = inr (Some sl) ->
  geocode end_ = inr (Some el) ->
  geodesic_kilometers (latitude sl, longitude sl) (latitude el, longitude el)
  = inr km ->
  let sc := (latitude sl, longitude sl) in
  let ec := (latitude el, longitude el) in
  (km = of_int 100 ->
   calculate_co2_footprint start end_ ["Zug"] 1
   = {| returned :=
          Some ([ {| Transportmittel := "Zug";
                     Distanz_km := lit 1300 1;
                     CO2_pro_Person_kg := lit 52 1;
                     Gesamt_CO2_kg := lit 52 1 |} ],
                of_int 100, sc, ec);
        shown := [] |}
   /\
   calculate_co2_footprint start end_ ["Flugzeug"] 1
   = {| returned :=
          Some ([ {| Transportmittel := "Flugzeug";
                     Distanz_km := lit 1000 1;
                     CO2_pro_Person_kg := lit 240 1;
                     Gesamt_CO2_kg := lit 240 1 |} ],
                of_int 100, sc, ec);
        shown := [] |})
  /\
  (km = of_int 50 ->
   calculate_co2_footprint start end_ ["Auto"] 2
   = {| returned :=
          Some ([ {| Transportmittel := "Auto";
                     Distanz_km := lit 600 1;
                     CO2_pro_Person_kg := lit 51 1;
                     Gesamt_CO2_kg := lit 102 1 |} ],
                of_int 50, sc, ec);
        shown := [] |}).
Proof.
  intros Hs He Hkm. cbv zeta.
  split; [intros -> ; split | intros ->];
    rewrite (calculate_resolved _ _ _ _ _ _ _ Hs He Hkm); reflexivity.
Qed.

Lemma scenario_rows_witness :
  let G := fixed_geo (of_int 50) in
  let zurich := {| latitude := lit 473744 4; longitude := lit 85410 4 |} in
  let berlin := {| latitude := lit 525170 4; longitude := lit 133889 4 |} in
  (geocode "Zürich, Schweiz" = inr (Some zurich) /\
   geocode "Berlin, Deutschland" = inr (Some berlin) /\
   geodesic_kilometers (latitude zurich, longitude zurich)
                       (latitude berlin, longitude berlin)
   = inr (of_int 50)) /\
  calculate_co2_footprint "Zürich, Schweiz" "Berlin, Deutschland" ["Auto"] 2
  = {| returned :=
         Some ([ {| Transportmittel := "Auto";
                    Distanz_km := lit 600 1;
                    CO2_pro_Person_kg := lit 51 1;
                    Gesamt_CO2_kg := lit 102 1 |} ],
               of_int 50,
               (latitude zurich, longitude zurich),
               (latitude berlin, longitude berlin));
       shown := [] |}.
Proof.
  cbv zeta. split.
  - repeat split; reflexivity.
  - apply (@scenario_rows (fixed_geo (of_int 50))
             "Zürich, Schweiz" "Berlin, Deutschland" _ _ (of_int 50));
      reflexivity.
Defined.

(** C10.  Whenever the function returns, the direct distance it used is the
    geodesic distance rounded to two decimal places, and every row holds,
    for its mode, the distance, the value per person and the total rounded
    to two decimal places, all three computed from that rounded direct
    distance.  The returned values can differ from the unrounded products:
    for a geodesic distance of 671.034 km, mode Car and 1 traveler the
    direct distance is 671.03 and the row holds 805.24 and 136.89, none of
    which is the product the formula gives before rounding. *)
Theorem returned_values_are_rounded :
  (forall (G : Geo) (start end_ : string) (transports : list string)
          (num_travelers : Z) (rows : list row) (direct_distance : float)
          (sc ec : coords),
      returned (calculate_co2_footprint start end_ transports num_travelers)
      = Some (rows, direct_distance, sc, ec) ->
      (exists km,
          geodesic_kilometers sc ec = inr km /\
          direct_distance = round km 2) /\
      Forall2
        (fun transport r =>
           exists m,
             transport = mode_name m /\
             let distance := mul direct_distance (distance_factor m) in
             let total_co2 := mul distance (emission_factor m) in
             Transportmittel r = transport /\
             Distanz_km r = round distance 2 /\
             CO2_pro_Person_kg r
             = round (div total_co2 (of_int num_travelers)) 2 /\
             Gesamt_CO2_kg r = round total_co2 2)
        transports rows)
  /\
  (let km := lit 671034 3 in
   exists r sc ec,
     returned (@calculate_co2_footprint (fixed_geo km)
                 "Zürich, Schweiz" "Berlin, Deutschland" ["Auto"] 1)
     = Some ([r], lit 67103 2, sc, ec) /\
     lit 67103 2 <> km /\
     Distanz_km r = lit 80524 2 /\
     Distanz_km r <> mul km (lit 12 1) /\
     Distanz_km r <> mul (lit 67103 2) (lit 12 1) /\
     Gesamt_CO2_kg r = lit 13689 2 /\
     Gesamt_CO2_kg r <> mul (mul (lit 67103 2) (lit 12 1)) (lit 17 2) /\
     CO2_pro_Person_kg r = lit 13689 2 /\
     CO2_pro_Person_kg r
     <> div (mul (mul (lit 67103 2) (lit 12 1)) (lit 17 2)) (of_int 1)).
Proof.
  split.
  - intros G start end_ transports n rows dd sc ec H.
    apply calculate_returned_inv in H. destruct H as (km & Hkm & -> & Hrows).
    split; [now exists km |].
    apply for_transports_inv in Hrows. destruct Hrows as (new & -> & Hall).
    cbn [app]. induction Hall as [| t r ts rs (m & -> & ->) _ IH];
      constructor; [| exact IH].
    exists m. cbv zeta. repeat split.
  - cbv zeta. do 3 eexists.
    split; [vm_compute; reflexivity |].
    repeat split; try (vm_compute; reflexivity);
      intros H; vm_compute in H; discriminate H.
Qed.

Lemma returned_values_are_rounded_witness :
  let G := fixed_geo (lit 671034 3) in
  let sc := (lit 473744 4, lit 85410 4) in
  let ec := (lit 525170 4, lit 133889 4) in
  returned (calculate_co2_footprint "Zürich, Schweiz" "Berlin, Deutschland"
                                    ["Auto"] 1)
  = Some ([rounded_row (lit 67103 2) 1 Car], lit 67103 2, sc, ec) /\
  exists km,
    geodesic_kilometers sc ec = inr km /\ lit 67103 2 = round km 2.
Proof.
  cbv zeta. split; [vm_compute; reflexivity |].
  apply (proj1 returned_values_are_rounded (fixed_geo (lit 671034 3))
               "Zürich, Schweiz" "Berlin, Deutschland" ["Auto"] 1
               [rounded_row (lit 67103 2) 1 Car] (lit 67103 2)).
  vm_compute; reflexivity.
Defined.

(** ** The synthetic training table *)

Import Training.

Lemma mul_comm (x y : float) : mul x y = mul y x.
Proof.
  destruct x as [sx | sx | | sx mx ex], y as [sy | sy | | sy my ey];
    unfold mul; cbn [SFmul]; try reflexivity;
    try (now rewrite xorb_comm).
  now rewrite xorb_comm, Pos.mul_comm, Z.add_comm.
Qed.

Lemma compare_refl (x : float) :
  is_nan x = false -> SFcompare x x = Some Eq.
Proof.
  destruct x as [s | s | | s m e]; cbn; try discriminate; intros _.
  - reflexivity.
  - now destruct s.
  - rewrite Z.compare_refl, Pos.compare_cont_refl. now destruct s.
Qed.

Lemma leb_refl_left (x y : float) : leb x y = true -> leb x x = true.
Proof.
  intros H. unfold leb, SFleb. rewrite compare_refl; [reflexivity |].
  destruct x; try reflexivity. discriminate H.
Qed.

Lemma wrap64_small (z : Z) : - 2 ^ 63 <= z < 2 ^ 63 -> wrap64 z = z.
Proof. intros H. unfold wrap64. rewrite Z.mod_small; lia. Qed.

Section Arrays.
Context {S A B C : Type}.

Lemma draws_length (one : S -> A * S) (size : nat) :
  forall s, List.length (fst (draws size one s)) = size.
Proof.
  induction size as [| size IH]; intros s; cbn [draws]; [reflexivity |].
  destruct (one s) as [x s1]. specialize (IH s1).
  destruct (draws size one s1) as [xs s2]. cbn in *. now rewrite IH.
Qed.

Lemma draws_Forall (P : A -> Prop) (one : S -> A * S) (size : nat) :
  (forall s, P (fst (one s))) ->
  forall s, Forall P (fst (draws size one s)).
Proof.
  intros HP. induction size as [| size IH]; intros s; cbn [draws].
  - constructor.
  - specialize (HP s). destruct (one s) as [x s1]. specialize (IH s1).
    destruct (draws size one s1) as [xs s2]. cbn in *. now constructor.
Qed.

Lemma zip_with_length (f : A -> B -> C) (xs : list A) :
  forall ys, List.length ys = List.length xs ->
             List.length (zip_with f xs ys) = List.length xs.
Proof.
  induction xs as [| x xs IH]; intros [| y ys] H; cbn in *;
    try reflexivity; try discriminate.
  now rewrite IH by lia.
Qed.

Lemma nth_error_zip_with (f : A -> B -> C) (xs : list A) :
  forall ys i x y,
    nth_error xs i = Some x -> nth_error ys i = Some y ->
    nth_error (zip_with f xs ys) i = Some (f x y).
Proof.
  induction xs as [| x0 xs IH]; intros [| y0 ys] [| i] x y Hx Hy;
    cbn in *; try discriminate.
  - now injection Hx as ->; injection Hy as ->.
  - now apply IH.
Qed.
End Arrays.

Lemma nth_error_repeat {A} (x : A) (n i : nat) :
  (i < n)%nat -> nth_error (repeat x n) i = Some x.
Proof.
  revert i. induction n as [| n IH]; intros [| i] H; cbn; try lia;
    [reflexivity | apply IH; lia].
Qed.

Lemma nth_error_equals (arr : list string) (s : string) (i : nat) (a : string) :
  nth_error arr i = Some a ->
  nth_error (equals arr s) i = Some (String.eqb a s).
Proof. intros H. unfold equals. now rewrite nth_error_map, H. Qed.

Lemma nth_error_assign_where (arr : list float) (arr0 : list string)
      (s : string) (v x : float) (i : nat) (a : string) :
  nth_error arr i = Some x -> nth_error arr0 i = Some a ->
  nth_error (assign_where arr (equals arr0 s) v) i
  = Some (if String.eqb a s then v else x).
Proof.
  intros Hx Ha. unfold assign_where.
  now rewrite (nth_error_zip_with _ _ _ _ _ _ Hx (nth_error_equals _ s _ _ Ha)).
Qed.

Lemma nth_error_type_factor_of (arr : list string) (i : nat) (a : string) :
  nth_error arr i = Some a ->
  nth_error (type_factor_of arr) i = Some (type_factor a).
Proof.
  intros Ha. unfold type_factor_of.
  assert (Hi : (i < List.length arr)%nat)
    by (apply nth_error_Some; congruence).
  rewrite (nth_error_assign_where _ _ _ _ _ _ _
             (nth_error_assign_where _ _ _ _ _ _ _
                (nth_error_assign_where _ _ _ _ _ _ _
                   (nth_error_assign_where _ _ _ _ _ _ _
                      (nth_error_repeat _ _ _ Hi) Ha) Ha) Ha) Ha).
  f_equal. unfold type_factor.
  repeat match goal with
         | |- context [String.eqb a ?k] =>
             destruct (String.eqb_spec a k) as [-> | ?]
         end; reflexivity.
Qed.

Lemma nth_error_season_factor_of (arr : list string) (i : nat) (a : string) :
  nth_error arr i = Some a ->
  nth_error (season_factor_of arr) i = Some (season_factor a).
Proof.
  intros Ha. unfold season_factor_of.
  assert (Hi : (i < List.length arr)%nat)
    by (apply nth_error_Some; congruence).
  rewrite (nth_error_assign_where _ _ _ _ _ _ _
             (nth_error_assign_where _ _ _ _ _ _ _
                (nth_error_assign_where _ _ _ _ _ _ _
                   (nth_error_assign_where _ _ _ _ _ _ _
                      (nth_error_repeat _ _ _ Hi) Ha) Ha) Ha) Ha).
  f_equal. unfold season_factor.
  repeat match goal with
         | |- context [String.eqb a ?k] =>
             destruct (String.eqb_spec a k) as [-> | ?]
         end; reflexivity.
Qed.

Lemma nth_error_lt {A} (l : list A) (i : nat) :
  (i < List.length l)%nat -> exists x, nth_error l i = Some x.
Proof.
  intros H. destruct (nth_error l i) as [x |] eqn:E; [now exists x |].
  apply nth_error_None in E. lia.
Qed.

Lemma Forall_nth {A} (P : A -> Prop) (l : list A) (i : nat) (x : A) :
  Forall P l -> nth_error l i = Some x -> P x.
Proof.
  intros HP Hx. rewrite Forall_forall in HP. eapply HP, nth_error_In, Hx.
Qed.

(** Row [i] of the target column, from row [i] of the six arrays. *)
Lemma co2_emissions_row (a : sample_arrays) (i : nat)
      (d : float) (age : Z) (ty se : string) (tr : Z) (eps : float) :
  nth_error (distances a) i = Some d ->
  nth_error (vehicle_ages a) i = Some age ->
  nth_error (vehicle_types a) i = Some ty ->
  nth_error (seasons a) i = Some se ->
  nth_error (traffic_levels a) i = Some tr ->
  nth_error (noise a) i = Some eps ->
  nth_error (co2_emissions_of a) i
  = Some (add
            (mul
               (mul
                  (mul
                     (mul (mul d (lit 17 2))
                          (add (of_int 1) (mul (of_int age) (lit 1 2))))
                     (type_factor ty))
                  (season_factor se))
               (add (of_int 1) (mul (of_int (wrap64 (tr - 1))) (lit 5 2))))
            eps).
Proof.
  intros Hd Hage Hty Hse Htr Heps. unfold co2_emissions_of.
  apply nth_error_zip_with; [| exact Heps].
  apply nth_error_zip_with; [| now rewrite nth_error_map, Htr].
  apply nth_error_zip_with; [| now apply nth_error_season_factor_of].
  apply nth_error_zip_with; [| now apply nth_error_type_factor_of].
  apply nth_error_zip_with; [now rewrite nth_error_map, Hd |].
  now rewrite nth_error_map, Hage.
Qed.

Lemma season_factor_of_length (arr : list string) :
  List.length (season_factor_of arr) = List.length arr.
Proof.
  unfold season_factor_of, assign_where, equals.
  repeat rewrite zip_with_length; rewrite ?length_map, ?repeat_length;
    reflexivity.
Qed.

Lemma type_factor_of_length (arr : list string) :
  List.length (type_factor_of arr) = List.length arr.
Proof.
  unfold type_factor_of, assign_where, equals.
  repeat rewrite zip_with_length; rewrite ?length_map, ?repeat_length;
    reflexivity.
Qed.

Lemma co2_emissions_length (a : sample_arrays) (n : nat) :
  List.length (distances a) = n ->
  List.length (vehicle_ages a) = n ->
  List.length (vehicle_types a) = n ->
  List.length (seasons a) = n ->
  List.length (traffic_levels a) = n ->
  List.length (noise a) = n ->
  List.length (co2_emissions_of a) = n.
Proof.
  intros H1 H2 H3 H4 H5 H6. unfold co2_emissions_of.
  repeat rewrite zip_with_length;
    rewrite ?length_map, ?type_factor_of_length, ?season_factor_of_length;
    congruence.
Qed.

(** The six arrays have [n_samples] entries each, the draws respect their
    bounds, and the noise is a run of [normal(0, 5)] draws. *)
Lemma generate_arrays {R : NumpyRandom} :
  numpy_contract R ->
  let a := fst generate in
  (List.length (distances a) = n_samples /\
   List.length (vehicle_ages a) = n_samples /\
   List.length (vehicle_types a) = n_samples /\
   List.length (seasons a) = n_samples /\
   List.length (traffic_levels a) = n_samples /\
   List.length (noise a) = n_samples) /\
  (Forall (fun d => leb (of_int 10) d = true /\ leb d (of_int 1000) = true)
          (distances a) /\
   Forall (fun v => 0 <= v < 21) (vehicle_ages a) /\
   Forall (fun t => In t vehicle_type_choices) (vehicle_types a) /\
   Forall (fun t => In t season_choices) (seasons a) /\
   Forall (fun t => 1 <= t < 11) (traffic_levels a)) /\
  exists s,
    noise a = fst (draws n_samples (normal (of_int 0) (of_int 5)) s).
Proof.
  intros [Hu Hr Hc]. unfold generate.
  pose proof (draws_length (uniform (of_int 10) (of_int 1000)) n_samples
                           (seed 42)) as L1.
  pose proof (draws_Forall
                (fun d => leb (of_int 10) d = true /\ leb d (of_int 1000) = true)
                (uniform (of_int 10) (of_int 1000)) n_samples
                (fun s => Hu (of_int 10) (of_int 1000) s eq_refl) (seed 42)) as F1.
  destruct (draws n_samples (uniform _ _) (seed 42)) as [ds s1].
  pose proof (draws_length (randint 0 21) n_samples s1) as L2.
  pose proof (draws_Forall (fun v => 0 <= v < 21) (randint 0 21) n_samples
                (fun s => Hr 0 21 s eq_refl) s1) as F2.
  destruct (draws n_samples (randint 0 21) s1) as [ages s2].
  pose proof (draws_length (choice vehicle_type_choices) n_samples s2) as L3.
  pose proof (draws_Forall (fun t => In t vehicle_type_choices)
                (choice vehicle_type_choices) n_samples
                (fun s => Hc vehicle_type_choices s
                             ltac:(discriminate)) s2) as F3.
  destruct (draws n_samples (choice vehicle_type_choices) s2) as [tys s3].
  pose proof (draws_length (choice season_choices) n_samples s3) as L4.
  pose proof (draws_Forall (fun t => In t season_choices)
                (choice season_choices) n_samples
                (fun s => Hc season_choices s ltac:(discriminate)) s3) as F4.
  destruct (draws n_samples (choice season_choices) s3) as [ses s4].
  pose proof (draws_length (randint 1 11) n_samples s4) as L5.
  pose proof (draws_Forall (fun t => 1 <= t < 11) (randint 1 11) n_samples
                (fun s => Hr 1 11 s eq_refl) s4) as F5.
  destruct (draws n_samples (randint 1 11) s4) as [trs s5].
  pose proof (draws_length (normal (of_int 0) (of_int 5)) n_samples s5) as L6.
  destruct (draws n_samples (normal _ _) s5) as [eps s6] eqn:E6.
  cbn [fst distances vehicle_ages vehicle_types seasons traffic_levels noise]
    in *.
  repeat split; try assumption.
  exists s5. now rewrite E6.
Qed.

Lemma lowest_rng_contract : numpy_contract Instances.lowest_rng.
Proof.
  constructor; cbn.
  - intros low high s H. split; [now apply leb_refl_left with high | exact H].
  - intros low high s H. lia.
  - intros [| o options] s H; [contradiction | now left].
Qed.

(** C5.  Under numpy's documented ranges for the draws, the target column
    has one entry per sample, the noise is a run of normal(0, 5) draws, and
    in every row the distance lies in [10, 1000], the vehicle age in
    [0, 20], vehicle type and season are among their four categories, the
    traffic level lies in [1, 10] and the target is
    distance * 0.17 * (1 + 0.01 * age) * type_factor * season_factor
    * (1 + 0.05 * (traffic_level - 1)) + noise, with the factor tables of
    the specification.  Nothing clamps the target: a stream that draws
    distance 10, a compact car and noise -5 gives a negative first target. *)
Theorem training_rows_follow_formula :
  (forall (R : NumpyRandom),
      numpy_contract R ->
      let a := fst generate in
      List.length (co2_emissions_of a) = n_samples /\
      (exists s,
          noise a = fst (draws n_samples (normal (of_int 0) (of_int 5)) s)) /\
      forall i,
        (i < n_samples)%nat ->
        exists distance vehicle_age vehicle_type season traffic_level eps,
          (nth_error (distances a) i = Some distance /\
           nth_error (vehicle_ages a) i = Some vehicle_age /\
           nth_error (vehicle_types a) i = Some vehicle_type /\
           nth_error (seasons a) i = Some season /\
           nth_error (traffic_levels a) i = Some traffic_level /\
           nth_error (noise a) i = Some eps) /\
          (leb (of_int 10) distance = true /\
           leb distance (of_int 1000) = true /\
           0 <= vehicle_age <= 20 /\
           In vehicle_type vehicle_type_choices /\
           In season season_choices /\
           1 <= traffic_level <= 10) /\
          nth_error (co2_emissions_of a) i
          = Some (sample_co2 distance vehicle_age vehicle_type season
                             traffic_level eps))
  /\
  (exists target,
      numpy_contract Instances.lowest_rng /\
      nth_error (co2_emissions_of (fst (@generate Instances.lowest_rng))) 0
      = Some target /\
      ltb target (of_int 0) = true).
Proof.
  split.
  - intros R HR a.
    destruct (generate_arrays HR)
      as ((L1 & L2 & L3 & L4 & L5 & L6) & (F1 & F2 & F3 & F4 & F5) & Hnoise).
    fold a in L1, L2, L3, L4, L5, L6, F1, F2, F3, F4, F5, Hnoise.
    split; [now apply co2_emissions_length |]. split; [exact Hnoise |].
    intros i Hi.
    destruct (nth_error_lt (distances a) i) as [d Hd]; [lia |].
    destruct (nth_error_lt (vehicle_ages a) i) as [age Hage]; [lia |].
    destruct (nth_error_lt (vehicle_types a) i) as [ty Hty]; [lia |].
    destruct (nth_error_lt (seasons a) i) as [se Hse]; [lia |].
    destruct (nth_error_lt (traffic_levels a) i) as [tr Htr]; [lia |].
    destruct (nth_error_lt (noise a) i) as [eps Heps]; [lia |].
    exists d, age, ty, se, tr, eps.
    pose proof (Forall_nth _ _ _ _ F1 Hd) as [Hlo Hhi].
    pose proof (Forall_nth _ _ _ _ F2 Hage) as Hage_range.
    pose proof (Forall_nth _ _ _ _ F3 Hty) as Hty_in.
    pose proof (Forall_nth _ _ _ _ F4 Hse) as Hse_in.
    pose proof (Forall_nth _ _ _ _ F5 Htr) as Htr_range.
    cbv beta in Hage_range, Hty_in, Hse_in, Htr_range.
    split; [repeat split; assumption |].
    split; [repeat split; (assumption || lia) |].
    rewrite (co2_emissions_row a i d age ty se tr eps) by assumption.
    unfold sample_co2. rewrite wrap64_small by lia.
    now rewrite (mul_comm (of_int age)), (mul_comm (of_int (tr - 1))).
  - eexists. split; [exact lowest_rng_contract |].
    split; vm_compute; reflexivity.
Qed.

Lemma training_rows_follow_formula_witness :
  numpy_contract Instances.lowest_rng /\
  List.length (co2_emissions_of (fst (@generate Instances.lowest_rng)))
  = n_samples.
Proof.
  split; [exact lowest_rng_contract |].
  apply (proj1 training_rows_follow_formula Instances.lowest_rng
               lowest_rng_contract).
Defined.

(** *** The columns recorded at training time *)

Lemma In_insert_sorted (s : string) (l : list string) (x : string) :
  In x (insert_sorted s l) <-> x = s \/ In x l.
Proof.
  induction l as [| t l IH]; cbn [insert_sorted In];
    [intuition congruence |].
  destruct (String.compare s t) eqn:E; cbn [In].
  - apply String.compare_eq_iff in E. subst t. intuition congruence.
  - intuition congruence.
  - rewrite IH. intuition congruence.
Qed.

Lemma In_categories (arr : list string) (x : string) :
  In x (categories arr) <-> In x arr.
Proof.
  unfold categories. induction arr as [| a arr IH]; cbn [fold_right In];
    [tauto |].
  rewrite In_insert_sorted, IH. intuition congruence.
Qed.

Lemma columns_of_get_dummies (arr : list string) (prefix : string) :
  columns_of (get_dummies arr prefix)
  = map (fun c => prefix ++ "_" ++ c) (categories arr).
Proof. unfold columns_of, get_dummies. now rewrite map_map. Qed.

(** What [train_co2_model] records: the three numeric columns, then one
    column per vehicle type drawn and one per season drawn, each group in
    sorted order. *)
Lemma trained_columns {R : NumpyRandom} {K : Sklearn} (s0 : rng_state)
      (model : estimator) (feature_columns : list string) :
  fst (train_co2_model s0) = inr (model, feature_columns) ->
  feature_columns
  = (["distance"; "vehicle_age"; "traffic_level"]
       ++ map (String.append "vehicle_type_")
              (categories (vehicle_types (fst generate)))
       ++ map (String.append "season_")
              (categories (seasons (fst generate))))%list.
Proof.
  unfold train_co2_model. destruct generate as [a s]. cbn [fst].
  destruct (train_test_split _ _ _ _) as [[[X_train X_test] y_train] y_test].
  cbn [fst].
  destruct (fit _ _ _ _) as [e | m]; [discriminate |]. cbn [bind].
  destruct (predict _ _) as [e | y_pred]; [discriminate |]. cbn [bind].
  destruct (mean_absolute_error _ _) as [e | mae]; [discriminate |].
  cbn [bind ret]. intros H. injection H as _ <-.
  unfold features_of, columns_of. rewrite !map_app.
  fold (columns_of (get_dummies (vehicle_types a) "vehicle_type")).
  fold (columns_of (get_dummies (seasons a) "season")).
  now rewrite !columns_of_get_dummies.
Qed.

(** A vehicle type or season that was drawn has its column. *)
Lemma seen_category_has_column {R : NumpyRandom} {K : Sklearn}
      (s0 : rng_state) (model : estimator) (feature_columns : list string)
      (category : string) :
  fst (train_co2_model s0) = inr (model, feature_columns) ->
  (In category (vehicle_types (fst generate)) ->
   In ("vehicle_type_" ++ category) feature_columns) /\
  (In category (seasons (fst generate)) ->
   In ("season_" ++ category) feature_columns).
Proof.
  intros H. rewrite (trained_columns _ _ _ H). split; intros Hin.
  - apply in_or_app. right. apply in_or_app. left.
    apply (in_map (String.append "vehicle_type_")). now apply In_categories.
  - apply in_or_app. right. apply in_or_app. right.
    apply (in_map (String.append "season_")). now apply In_categories.
Qed.

Example categories_sorted :
  categories ["Winter"; "Frühling"; "Sommer"; "Winter"; "Herbst"]
  = ["Frühling"; "Herbst"; "Sommer"; "Winter"].
Proof. reflexivity. Qed.

(** The first target of the lowest stream is -3.6399999999999997. *)
Example lowest_rng_first_target :
  nth_error (co2_emissions_of (fst (@generate Instances.lowest_rng))) 0
  = Some (S754_finite true 8196551321814302 (-51)).
Proof. vm_compute. reflexivity. Qed.

(** ** Feature-vector assembly and prediction *)

Import Prediction.

Lemma frame_get_setitem (fr : frame) (k k' : string) (v : list cell) :
  frame_get (setitem fr k v) k'
  = if String.eqb k k' then Some v else frame_get fr k'.
Proof.
  induction fr as [| [c w] fr IH]; cbn [setitem frame_get]; [reflexivity |].
  destruct (String.eqb_spec c k) as [-> | Hck]; cbn [frame_get].
  - now destruct (String.eqb k k').
  - rewrite IH. destruct (String.eqb_spec c k') as [-> | Hck'];
      [| reflexivity].
    destruct (String.eqb_spec k k') as [-> | _]; [contradiction | reflexivity].
Qed.

Lemma columns_of_select (fr : frame) (cols : list string) (out : frame) :
  select fr cols = inr out -> columns_of out = cols.
Proof.
  revert out. induction cols as [| c cols IH]; intros out H; cbn [select] in H.
  - now injection H as <-.
  - destruct (frame_get fr c); [| discriminate].
    destruct (select fr cols) as [e | rest]; [discriminate |].
    cbn [bind ret] in H. injection H as <-. cbn. f_equal. now apply IH.
Qed.

Lemma select_map (fr : frame) (f : string -> list cell) (cols : list string) :
  (forall c, In c cols -> frame_get fr c = Some (f c)) ->
  select fr cols = ret (map (fun c => (c, f c)) cols).
Proof.
  induction cols as [| c cols IH]; intros H; cbn [select map]; [reflexivity |].
  rewrite (H c) by now left.
  rewrite IH by (intros c' Hc'; apply H; now right). reflexivity.
Qed.

Section Loops.
Variables (prefix category : string).

Lemma one_hot_get (columns : list string) (c : string) :
  String.prefix prefix c = true ->
  forall fr,
    frame_get (one_hot prefix category columns fr) c
    = if existsb (String.eqb c) columns
      then Some (scalar (flag (String.eqb c (prefix ++ category))))
      else frame_get fr c.
Proof.
  intros Hp. unfold one_hot.
  induction columns as [| col columns IH]; intros fr;
    cbn [fold_left existsb]; [reflexivity |].
  rewrite IH. destruct (existsb (String.eqb c) columns);
    [now rewrite orb_true_r |].
  rewrite orb_false_r.
  destruct (String.eqb_spec c col) as [<- | Hne].
  - now rewrite Hp, frame_get_setitem, String.eqb_refl.
  - destruct (String.prefix prefix col); [| reflexivity].
    rewrite frame_get_setitem.
    destruct (String.eqb_spec col c) as [-> | _];
      [contradiction | reflexivity].
Qed.

Lemma one_hot_get_other (columns : list string) (c : string) :
  String.prefix prefix c = false ->
  forall fr,
    frame_get (one_hot prefix category columns fr) c = frame_get fr c.
Proof.
  intros Hp. unfold one_hot.
  induction columns as [| col columns IH]; intros fr; cbn [fold_left];
    [reflexivity |].
  rewrite IH. destruct (String.prefix prefix col) eqn:Hcol; [| reflexivity].
  rewrite frame_get_setitem.
  destruct (String.eqb_spec col c) as [-> | _]; [congruence | reflexivity].
Qed.
End Loops.

Lemma fill_missing_get (columns : list string) (c : string) :
  forall fr,
    frame_get (fill_missing columns fr) c
    = match frame_get fr c with
      | Some v => Some v
      | None =>
          if existsb (String.eqb c) columns then Some (scalar (IntCell 0))
          else None
      end.
Proof.
  unfold fill_missing.
  induction columns as [| col columns IH]; intros fr; cbn [fold_left existsb].
  - now destruct (frame_get fr c).
  - rewrite IH. unfold has_column.
    destruct (frame_get fr col) as [w |] eqn:Hcol.
    + destruct (frame_get fr c) eqn:Hc; [reflexivity |].
      destruct (String.eqb_spec c col) as [-> | _]; [congruence | reflexivity].
    + rewrite frame_get_setitem.
      destruct (String.eqb_spec col c) as [-> | Hne].
      * now rewrite Hcol, String.eqb_refl.
      * destruct (frame_get fr c); [reflexivity |].
        destruct (String.eqb_spec c col) as [-> | _];
          [contradiction | reflexivity].
Qed.

Lemma prefixes_exclusive (c : string) :
  String.prefix "vehicle_type_" c = true -> String.prefix "season_" c = false.
Proof.
  destruct c as [| a c]; cbn [String.prefix]; [discriminate |].
  destruct (ascii_dec "v" a) as [<- | _]; [| discriminate].
  intros _. now destruct (ascii_dec "s" "v").
Qed.

Lemma existsb_eqb_In (c : string) (columns : list string) :
  In c columns -> existsb (String.eqb c) columns = true.
Proof.
  intros H. apply existsb_exists. exists c. split; [exact H |].
  apply String.eqb_refl.
Qed.

(** The assembled frame, column by column. *)
Lemma assemble_spec (distance : float) (vehicle_age : Z)
      (vehicle_type season : string) (traffic_level : Z)
      (columns : list string) :
  assemble distance vehicle_age vehicle_type season traffic_level columns
  = ret (map (fun col =>
                (col, scalar (expected_cell distance vehicle_age vehicle_type
                                            season traffic_level col)))
             columns).
Proof.
  unfold assemble. apply select_map. intros c Hc.
  rewrite fill_missing_get. unfold expected_cell.
  destruct (String.prefix "season_" c) eqn:Hs.
  - rewrite one_hot_get, (existsb_eqb_In _ _ Hc) by exact Hs.
    destruct (String.prefix "vehicle_type_" c) eqn:Hv; [| reflexivity].
    apply prefixes_exclusive in Hv. congruence.
  - rewrite one_hot_get_other by exact Hs.
    destruct (String.prefix "vehicle_type_" c) eqn:Hv.
    + now rewrite one_hot_get, (existsb_eqb_In _ _ Hc) by exact Hv.
    + rewrite one_hot_get_other by exact Hv. cbn [frame_get].
      rewrite (String.eqb_sym "distance"), (String.eqb_sym "vehicle_age"),
        (String.eqb_sym "traffic_level").
      rewrite (existsb_eqb_In _ _ Hc).
      destruct (String.eqb c "distance"); [reflexivity |].
      destruct (String.eqb c "vehicle_age"); [reflexivity |].
      destruct (String.eqb c "traffic_level"); reflexivity.
Qed.

(** C8.  For every column list handed over (in particular the one recorded
    at training time) the assembly succeeds, the frame has exactly these
    columns in this order, every vehicle_type_ column holds 1 if it is the
    column of the given vehicle type and 0 otherwise, every season_ column
    holds 1 if it is the column of the given season and 0 otherwise, and a
    vehicle type or season whose column is not in the list leaves all
    indicators of its group 0. *)
Theorem feature_vector_is_one_hot
        (distance : float) (vehicle_age : Z) (vehicle_type season : string)
        (traffic_level : Z) (columns : list string) :
  exists input_data,
    assemble distance vehicle_age vehicle_type season traffic_level columns
    = inr input_data /\
    columns_of input_data = columns /\
    Forall
      (fun column =>
         let col := fst column in
         (String.prefix "vehicle_type_" col = true ->
          snd column
          = [IntCell (if String.eqb col ("vehicle_type_" ++ vehicle_type)
                      then 1 else 0)]) /\
         (String.prefix "season_" col = true ->
          snd column
          = [IntCell (if String.eqb col ("season_" ++ season)
                      then 1 else 0)]))
      input_data /\
    (~ In ("vehicle_type_" ++ vehicle_type) columns ->
     Forall (fun column =>
               String.prefix "vehicle_type_" (fst column) = true ->
               snd column = [IntCell 0])
            input_data) /\
    (~ In ("season_" ++ season) columns ->
     Forall (fun column =>
               String.prefix "season_" (fst column) = true ->
               snd column = [IntCell 0])
            input_data).
Proof.
  eexists. split; [apply assemble_spec |].
  split; [unfold columns_of; rewrite map_map; apply map_id |].
  split; [| split].
  - apply Forall_map, Forall_forall. intros c _. cbn [fst snd].
    unfold expected_cell, scalar, flag. split; intros Hp.
    + now rewrite Hp.
    + destruct (String.prefix "vehicle_type_" c) eqn:Hv.
      * apply prefixes_exclusive in Hv. congruence.
      * now rewrite Hp.
  - intros Hunseen. apply Forall_map, Forall_forall. intros c Hc.
    cbn [fst snd]. intros Hp. unfold expected_cell, scalar, flag. rewrite Hp.
    destruct (String.eqb_spec c ("vehicle_type_" ++ vehicle_type))
      as [-> | _]; [contradiction | reflexivity].
  - intros Hunseen. apply Forall_map, Forall_forall. intros c Hc.
    cbn [fst snd]. intros Hp. unfold expected_cell, scalar, flag.
    destruct (String.prefix "vehicle_type_" c) eqn:Hv.
    + apply prefixes_exclusive in Hv. congruence.
    + rewrite Hp.
      destruct (String.eqb_spec c ("season_" ++ season))
        as [-> | _]; [contradiction | reflexivity].
Qed.

(** The columns recorded at training time, fed with a trip. *)
Example assemble_training_columns :
  assemble (lit 8052 1) 5 "SUV" "Winter" 7
           [ "distance"; "vehicle_age"; "traffic_level";
             "vehicle_type_Kleinwagen"; "vehicle_type_Luxusklasse";
             "vehicle_type_Mittelklasse"; "vehicle_type_SUV";
             "season_Frühling"; "season_Herbst"; "season_Sommer";
             "season_Winter" ]
  = ret [ ("distance", [FloatCell (lit 8052 1)]);
          ("vehicle_age", [IntCell 5]);
          ("traffic_level", [IntCell 7]);
          ("vehicle_type_Kleinwagen", [IntCell 0]);
          ("vehicle_type_Luxusklasse", [IntCell 0]);
          ("vehicle_type_Mittelklasse", [IntCell 0]);
          ("vehicle_type_SUV", [IntCell 1]);
          ("season_Frühling", [IntCell 0]);
          ("season_Herbst", [IntCell 0]);
          ("season_Sommer", [IntCell 0]);
          ("season_Winter", [IntCell 1]) ].
Proof. reflexivity. Qed.







(** The same call on the columns recorded at training time is answered. *)
Example matching_columns_are_answered :
  @predict_co2_with_ml Instances.checking_sklearn
     (lit 2000 1) 5 "Kleinwagen" "Sommer" 7
     [ "distance"; "vehicle_age"; "traffic_level";
       "vehicle_type_Kleinwagen"; "season_Frühling" ]
     [ "distance"; "vehicle_age"; "traffic_level";
       "vehicle_type_Kleinwagen"; "season_Frühling" ]
  = inr (lit 340 1).
Proof. reflexivity. Qed.

(** ** Determinism of training and prediction *)

Lemma train_state_independent {R : NumpyRandom} {K : Sklearn}
      (s1 s2 : rng_state) :
  train_co2_model s1 = train_co2_model s2.
Proof. reflexivity. Qed.

Lemma cached_train_value {R : NumpyRandom} {K : Sklearn}
      (cache : model_cache) (s0 s : rng_state) :
  cache_is_trained cache ->
  fst (fst (cached_train_co2_model cache s0)) = fst (train_co2_model s).
Proof.
  destruct cache as [value |]; cbn [cached_train_co2_model cache_is_trained].
  - intros [s' H]. cbn [fst]. now rewrite (train_state_independent s s').
  - intros _. rewrite (train_state_independent s0 s).
    now destruct (train_co2_model s).
Qed.

Lemma cached_train_keeps_cache {R : NumpyRandom} {K : Sklearn}
      (cache : model_cache) (s0 : rng_state) :
  cache_is_trained cache ->
  cache_is_trained (snd (fst (cached_train_co2_model cache s0))).
Proof.
  destruct cache as [value |]; cbn [cached_train_co2_model]; [trivial |].
  intros _. destruct (train_co2_model s0) as [[e | value] s] eqn:E;
    cbn [fst snd cache_is_trained]; [trivial |].
  exists s0. now rewrite E.
Qed.

(** C7.  Two runs of the script that ask for the same trip get the same
    answer, whatever random state and whatever cache (empty, or filled by an
    earlier training) each run starts with: training seeds the stream itself
    and hands fixed seeds to the library, and the prediction reads nothing
    but its arguments.  A run leaves the cache filled by a training. *)
Theorem prediction_is_deterministic
        {R : NumpyRandom} {K : Sklearn} (cache1 cache2 : model_cache)
        (s1 s2 : rng_state) (distance : float) (vehicle_age : Z)
        (vehicle_type season : string) (traffic_level : Z) :
  cache_is_trained cache1 ->
  cache_is_trained cache2 ->
  let run1 := script_prediction cache1 s1 distance vehicle_age vehicle_type
                                season traffic_level in
  let run2 := script_prediction cache2 s2 distance vehicle_age vehicle_type
                                season traffic_level in
  fst (fst run1) = fst (fst run2) /\
  cache_is_trained (snd (fst run1)) /\
  cache_is_trained (snd (fst run2)).
Proof.
  intros H1 H2. cbv zeta. unfold script_prediction.
  pose proof (cached_train_value cache1 s1 s1 H1) as V1.
  pose proof (cached_train_value cache2 s2 s1 H2) as V2.
  pose proof (cached_train_keeps_cache cache1 s1 H1) as C1.
  pose proof (cached_train_keeps_cache cache2 s2 H2) as C2.
  destruct (cached_train_co2_model cache1 s1) as [[t1 c1] s1'].
  destruct (cached_train_co2_model cache2 s2) as [[t2 c2] s2'].
  cbn [fst snd] in *. rewrite V1, V2. repeat split; assumption.
Qed.

Lemma prediction_is_deterministic_witness :
  let R := Instances.lowest_rng in
  let K := Instances.checking_sklearn in
  fst (fst (script_prediction None 7 (lit 2000 1) 5 "SUV" "Winter" 7))
  = fst (fst (script_prediction None 0 (lit 2000 1) 5 "SUV" "Winter" 7)).
Proof.
  pose proof (@prediction_is_deterministic Instances.lowest_rng
                Instances.checking_sklearn None None 7 0 (lit 2000 1) 5
                "SUV" "Winter" 7 I I) as H.
  exact (proj1 H).
Defined.

Example script_prediction_lowest :
  fst (fst (@script_prediction Instances.checking_sklearn Instances.lowest_rng
              None 7 (lit 2000 1) 5 "Kleinwagen" "Winter" 7))
  = inr (lit 340 1).
Proof. vm_compute. reflexivity. Qed.

(** ** The feature-importance table *)

Import Importance.

Lemma insert_descending_perm (a : string * float) (l : list (string * float)) :
  Permutation (insert_descending a l) (a :: l).
Proof.
  induction l as [| b l IH]; cbn [insert_descending]; [reflexivity |].
  destruct (precedes a b); [reflexivity |].
  rewrite IH. apply perm_swap.
Qed.

Lemma sort_values_descending_perm (rows : list (string * float)) :
  Permutation (sort_values_descending rows) rows.
Proof.
  unfold sort_values_descending.
  induction rows as [| a rows IH]; cbn [fold_right]; [reflexivity |].
  rewrite insert_descending_perm. now constructor.
Qed.

Lemma total_perm (l l' : list float) :
  Permutation l l' -> (total l == total l')%Q.
Proof.
  induction 1 as [| x l l' _ IH | x y l | l l' l'' _ IH1 _ IH2];
    cbn [total fold_right].
  - reflexivity.
  - fold (total l) (total l'). now rewrite IH.
  - fold (total l). ring.
  - now rewrite IH1.
Qed.

Lemma total_nonneg (l : list float) :
  Forall (fun x => (0 <= to_Q x)%Q) l -> (0 <= total l)%Q.
Proof.
  induction 1 as [| x l Hx _ IH]; cbn [total fold_right].
  - apply Qle_refl.
  - fold (total l). replace 0%Q with (0 + 0)%Q by reflexivity.
    now apply Qplus_le_compat.
Qed.

Lemma score_le_total (l : list float) (x : float) :
  Forall (fun x => (0 <= to_Q x)%Q) l -> In x l -> (to_Q x <= total l)%Q.
Proof.
  induction 1 as [| y l Hy Hl IH]; intros Hin; [contradiction |].
  cbn [total fold_right]. fold (total l). destruct Hin as [-> | Hin].
  - rewrite <- (Qplus_0_r (to_Q x)) at 1.
    apply Qplus_le_compat; [apply Qle_refl | now apply total_nonneg].
  - rewrite <- (Qplus_0_l (to_Q x)).
    apply Qplus_le_compat; [exact Hy | now apply IH].
Qed.

Lemma combine_fst {A B} (l : list A) :
  forall l' : list B,
    List.length l' = List.length l -> map fst (combine l l') = l.
Proof.
  induction l as [| a l IH]; intros [| b l'] H; cbn in *;
    try reflexivity; try discriminate.
  f_equal. apply IH. lia.
Qed.

Lemma combine_snd {A B} (l : list A) :
  forall l' : list B,
    List.length l' = List.length l -> map snd (combine l l') = l'.
Proof.
  induction l as [| a l IH]; intros [| b l'] H; cbn in *;
    try reflexivity; try discriminate.
  f_equal. apply IH. lia.
Qed.

(** The scores themselves are computed inside the library from the fitted
    trees; the program only pairs them with the column names and sorts the
    pairs.  So the table carries whatever the library delivers: if there is
    one finite, non-negative score per feature and the scores sum to 1 up
    to a tolerance, the table is a rearrangement of the pairs (feature
    name, score) with the same bounds and the same sum. *)
Lemma ranking_carries_library_scores
        {K : Sklearn} (feature_columns : list string) (model : estimator)
        (tolerance : Q) :
  List.length (feature_importances_ model) = List.length feature_columns ->
  Forall (fun x => is_finite x = true /\ (0 <= to_Q x)%Q)
         (feature_importances_ model) ->
  (Qabs (total (feature_importances_ model) - 1) <= tolerance)%Q ->
  exists ranking,
    feature_importance feature_columns model = inr ranking /\
    Permutation ranking
                (combine feature_columns (feature_importances_ model)) /\
    Permutation (map fst ranking) feature_columns /\
    Forall (fun entry =>
              is_finite (snd entry) = true /\
              (0 <= to_Q (snd entry) <= 1 + tolerance)%Q)
           ranking /\
    (Qabs (total (map snd ranking) - 1) <= tolerance)%Q.
Proof.
  intros Hlen Hpos Hsum.
  set (imps := feature_importances_ model) in *.
  exists (sort_values_descending (combine feature_columns imps)).
  assert (Hperm : Permutation
                    (sort_values_descending (combine feature_columns imps))
                    (combine feature_columns imps))
    by apply sort_values_descending_perm.
  assert (Hscores : Permutation
                      (map snd (sort_values_descending
                                  (combine feature_columns imps)))
                      imps).
  { rewrite (Permutation_map snd Hperm). now rewrite combine_snd. }
  assert (Hnonneg : Forall (fun x => (0 <= to_Q x)%Q) imps).
  { eapply Forall_impl; [| exact Hpos]. cbv beta. tauto. }
  split.
  - unfold feature_importance, data_frame. fold imps.
    rewrite Hlen, Nat.eqb_refl. reflexivity.
  - split; [exact Hperm |]. split.
    + rewrite (Permutation_map fst Hperm). now rewrite combine_fst.
    + split.
      * apply Forall_forall. intros [name score] Hin. cbn [snd].
        assert (Hscore : In score imps).
        { apply (Permutation_in _ Hscores).
          change score with (snd (name, score)). now apply in_map. }
        rewrite Forall_forall in Hpos. destruct (Hpos _ Hscore) as [Hfin H0].
        split; [exact Hfin |]. split; [exact H0 |].
        apply Qle_trans with (total imps);
          [now apply score_le_total |].
        apply Qabs_Qle_condition in Hsum. destruct Hsum as [_ Hup].
        apply Qplus_le_l with (z := (- (1))%Q).
        setoid_replace (1 + tolerance + - (1))%Q with tolerance by ring.
        exact Hup.
      * now rewrite (total_perm _ _ Hscores).
Qed.

Example feature_importance_ranking :
  @feature_importance Instances.checking_sklearn
     ["distance"; "vehicle_age"; "traffic_level"]
     ["distance"; "vehicle_age"; "traffic_level"]
  = ret [ ("vehicle_age", lit 5 1); ("distance", lit 375 3);
          ("traffic_level", lit 125 3) ].
Proof. reflexivity. Qed.

(** *** The table is in descending order *)

Lemma compare_antisym (x y : float) (c : comparison) :
  SFcompare x y = Some c -> SFcompare y x = Some (CompOpp c).
Proof.
  destruct x as [sx | sx | | sx mx ex], y as [sy | sy | | sy my ey];
    cbn [SFcompare]; try discriminate;
    intros H; injection H as <-;
    try (destruct sx; reflexivity); try (destruct sy; reflexivity);
    try (destruct sx, sy; reflexivity).
  destruct sx, sy; try reflexivity;
    rewrite (Z.compare_antisym ex ey);
    destruct (ex ?= ey); cbn [CompOpp]; try reflexivity;
    rewrite (ZC4 my mx); now rewrite ?CompOpp_involutive.
Qed.

Lemma precedes_total (a b : string * float) :
  precedes a b = false -> precedes b a = true.
Proof.
  unfold precedes, leb, SFleb. intros H.
  apply orb_false_iff in H. destruct H as [Hle Hnan].
  destruct (SFcompare (snd b) (snd a)) as [c |] eqn:E.
  - rewrite (compare_antisym _ _ _ E).
    destruct c; cbn [CompOpp]; try discriminate Hle. reflexivity.
  - destruct (snd b) eqn:Eb, (snd a) eqn:Ea; cbn in E, Hnan |- *;
      try discriminate; try reflexivity;
      try (now rewrite orb_true_r).
Qed.

Lemma insert_descending_sorted (a : string * float)
      (l : list (string * float)) :
  Sorted (fun x y => precedes x y = true) l ->
  Sorted (fun x y => precedes x y = true) (insert_descending a l).
Proof.
  induction 1 as [| b l Hl IH Hb]; cbn [insert_descending].
  - repeat constructor.
  - destruct (precedes a b) eqn:E.
    + constructor; [now constructor | now constructor].
    + constructor; [exact IH |].
      apply precedes_total in E.
      destruct l as [| c l]; cbn [insert_descending].
      * now constructor.
      * destruct (precedes a c); constructor; [exact E |].
        now inversion Hb.
Qed.

(** The table really is a ranking: no row stands before a row with a
    larger score, and rows without a score stand last. *)
Lemma sort_values_descending_sorted (rows : list (string * float)) :
  Sorted (fun x y => precedes x y = true) (sort_values_descending rows).
Proof.
  unfold sort_values_descending.
  induction rows as [| a rows IH]; cbn [fold_right]; [constructor |].
  now apply insert_descending_sorted.
Qed.

(** ** The order and the signs of doubles *)

Import FloatOrder.

Lemma compare_rank (x y : float) :
  is_nan x = false -> is_nan y = false ->
  SFcompare x y = Some (lex (rank x) (rank y)).
Proof.
  destruct x as [sx | sx | | sx mx ex], y as [sy | sy | | sy my ey];
    cbn [is_nan]; try discriminate; intros _ _;
    try (destruct sx; reflexivity); try (destruct sy; reflexivity);
    try (destruct sx, sy; reflexivity).
  destruct sx, sy; try reflexivity; unfold lex; cbn [SFcompare rank fst snd].
  rewrite Z.compare_opp, (Z.compare_antisym ex ey).
  destruct (ex ?= ey); reflexivity.
Qed.

Ltac lex_cases :=
  unfold lex; cbn [fst snd];
  repeat match goal with
         | |- context [?a ?= ?b] => destruct (Z.compare_spec a b)
         | H : context [?a ?= ?b] |- _ => destruct (Z.compare_spec a b)
         end;
  try lia; try congruence.

Lemma lex_le_trans (a b c : Z * Z * Z) :
  lex a b <> Gt -> lex b c <> Gt -> lex a c <> Gt.
Proof.
  destruct a as [[a1 a2] a3], b as [[b1 b2] b3], c as [[c1 c2] c3].
  lex_cases.
Qed.

Lemma lex_lt_le_trans (a b c : Z * Z * Z) :
  lex a b = Lt -> lex b c <> Gt -> lex a c = Lt.
Proof.
  destruct a as [[a1 a2] a3], b as [[b1 b2] b3], c as [[c1 c2] c3].
  lex_cases.
Qed.

Lemma lex_antisym (a b : Z * Z * Z) : lex b a = CompOpp (lex a b).
Proof.
  destruct a as [[a1 a2] a3], b as [[b1 b2] b3]. unfold lex; cbn [fst snd].
  rewrite (Z.compare_antisym a1 b1), (Z.compare_antisym a2 b2),
    (Z.compare_antisym a3 b3).
  destruct (a1 ?= b1), (a2 ?= b2), (a3 ?= b3); reflexivity.
Qed.

Lemma leb_rank (x y : float) :
  is_nan x = false -> is_nan y = false ->
  leb x y = true <-> lex (rank x) (rank y) <> Gt.
Proof.
  intros Hx Hy. unfold leb, SFleb. rewrite (compare_rank x y Hx Hy).
  destruct (lex (rank x) (rank y)); split; congruence.
Qed.

Lemma ltb_rank (x y : float) :
  is_nan x = false -> is_nan y = false ->
  ltb x y = true <-> lex (rank x) (rank y) = Lt.
Proof.
  intros Hx Hy. unfold ltb, SFltb. rewrite (compare_rank x y Hx Hy).
  destruct (lex (rank x) (rank y)); split; congruence.
Qed.

(** Among numbers, "not less" is "greater or equal". *)
Lemma ltb_false_leb (x y : float) :
  is_nan x = false -> is_nan y = false ->
  ltb x y = false <-> leb y x = true.
Proof.
  intros Hx Hy.
  rewrite (leb_rank y x Hy Hx), (lex_antisym (rank x) (rank y)).
  unfold ltb, SFltb. rewrite (compare_rank x y Hx Hy).
  destruct (lex (rank x) (rank y)); cbn; split; congruence.
Qed.

Lemma leb_trans (x y z : float) :
  is_nan x = false -> is_nan y = false -> is_nan z = false ->
  leb x y = true -> leb y z = true -> leb x z = true.
Proof.
  intros Hx Hy Hz. rewrite !leb_rank by assumption. apply lex_le_trans.
Qed.

Lemma leb_refl (x : float) : is_nan x = false -> leb x x = true.
Proof.
  intros Hx. unfold leb, SFleb. now rewrite compare_refl.
Qed.

Lemma signed_not_nan (s : bool) (x : float) : signed s x -> is_nan x = false.
Proof. destruct x; cbn; [reflexivity .. | contradiction | reflexivity]. Qed.

Lemma signed_not_negative (x : float) :
  signed false x -> ltb x (of_int 0) = false.
Proof.
  destruct x as [s | s | | s m e]; cbn [signed]; try contradiction;
    intros ->; reflexivity.
Qed.

(** *** Rounding never invents a NaN or a sign *)

Lemma digits2_pos_bounds (m : positive) :
  2 ^ (Zpos (digits2_pos m) - 1) <= Zpos m < 2 ^ Zpos (digits2_pos m).
Proof.
  induction m as [m IH | m IH |]; cbn [digits2_pos].
  - rewrite Pos2Z.inj_succ.
    replace (Z.succ (Zpos (digits2_pos m)) - 1)
      with (Zpos (digits2_pos m)) by lia.
    rewrite Z.pow_succ_r by lia.
    replace (Zpos (digits2_pos m))
      with (Z.succ (Zpos (digits2_pos m) - 1)) at 1 by lia.
    rewrite Z.pow_succ_r by lia. lia.
  - rewrite Pos2Z.inj_succ.
    replace (Z.succ (Zpos (digits2_pos m)) - 1)
      with (Zpos (digits2_pos m)) by lia.
    rewrite Z.pow_succ_r by lia.
    replace (Zpos (digits2_pos m))
      with (Z.succ (Zpos (digits2_pos m) - 1)) at 1 by lia.
    rewrite Z.pow_succ_r by lia. lia.
  - cbn. lia.
Qed.

Lemma iter_pos_nat {A} (f : A -> A) (p : positive) (x : A) :
  iter_pos f p x = Nat.iter (Pos.to_nat p) f x.
Proof.
  revert x. induction p as [p IH | p IH |]; intros x; cbn [iter_pos].
  - rewrite !IH. rewrite Pos2Nat.inj_xI.
    rewrite <- Nat.iter_succ_r. rewrite <- Nat.iter_add. f_equal. lia.
  - rewrite !IH. rewrite Pos2Nat.inj_xO. rewrite <- Nat.iter_add.
    f_equal. lia.
  - reflexivity.
Qed.

Lemma shr_1_m (mrs : shr_record) :
  0 <= shr_m mrs -> shr_m (shr_1 mrs) = shr_m mrs / 2.
Proof.
  destruct mrs as [m r s]. cbn [shr_m shr_1].
  destruct m as [| [p | p |] | p]; intros H; cbn [shr_m]; try lia.
  - reflexivity.
  - rewrite Pos2Z.inj_xI. apply Z.div_unique with 1; lia.
  - rewrite Pos2Z.inj_xO. apply Z.div_unique with 0; lia.
  - reflexivity.
Qed.

Lemma shr_iter_m (n : nat) (mrs : shr_record) :
  0 <= shr_m mrs ->
  shr_m (Nat.iter n shr_1 mrs) = shr_m mrs / 2 ^ Z.of_nat n.
Proof.
  intros H. induction n as [| n IH].
  - cbn. now rewrite Z.div_1_r.
  - rewrite Nat.iter_succ, shr_1_m.
    + rewrite IH, Nat2Z.inj_succ, Z.pow_succ_r by lia.
      rewrite Z.div_div by (try lia; apply Z.pow_pos_nonneg; lia).
      f_equal. lia.
    + rewrite IH. apply Z.div_pos; [lia | apply Z.pow_pos_nonneg; lia].
Qed.

Lemma shr_record_of_loc_m (m : Z) (l : location) :
  shr_m (shr_record_of_loc m l) = m.
Proof. destruct l as [| []]; reflexivity. Qed.

Lemma shr_fexp_nonneg (m e : Z) (l : location) :
  0 <= m -> 0 <= shr_m (fst (shr_fexp 53 1024 m e l)).
Proof.
  intros Hm. unfold shr_fexp, shr.
  destruct (fexp 53 1024 (Zdigits2 m + e) - e) as [| p | p];
    cbn [fst]; rewrite ?shr_record_of_loc_m; try lia.
  rewrite iter_pos_nat, shr_iter_m by (rewrite shr_record_of_loc_m; lia).
  rewrite shr_record_of_loc_m.
  apply Z.div_pos; [lia | apply Z.pow_pos_nonneg; lia].
Qed.

Lemma shr_fexp_pos (m : positive) (e : Z) (l : location) :
  -1074 <= e ->
  0 < shr_m (fst (shr_fexp 53 1024 (Zpos m) e l)) /\
  -1074 <= snd (shr_fexp 53 1024 (Zpos m) e l).
Proof.
  intros He. unfold shr_fexp, shr, fexp, emin. cbn [Zdigits2].
  pose proof (digits2_pos_bounds m) as [Hlo _].
  set (d := Zpos (digits2_pos m)) in *.
  destruct (Z.max (d + e - 53) (3 - 1024 - 53) - e) as [| p | p] eqn:En;
    cbn [fst snd]; rewrite ?shr_record_of_loc_m; try lia.
  rewrite iter_pos_nat, shr_iter_m by (rewrite shr_record_of_loc_m; lia).
  rewrite shr_record_of_loc_m, positive_nat_Z.
  split; [| lia].
  assert (Hp : Zpos p <= d - 1) by lia.
  apply Z.div_str_pos. split; [apply Z.pow_pos_nonneg; lia |].
  apply Z.le_trans with (2 ^ (d - 1));
    [apply Z.pow_le_mono_r; lia | exact Hlo].
Qed.

Lemma round_nearest_even_nonneg (m : Z) (l : location) :
  0 <= m -> 0 <= round_nearest_even m l.
Proof.
  intros H. destruct l as [| []]; cbn [round_nearest_even]; try lia.
  destruct (Z.even m); lia.
Qed.

Lemma round_nearest_even_pos (m : Z) (l : location) :
  0 < m -> 0 < round_nearest_even m l.
Proof.
  intros H. destruct l as [| []]; cbn [round_nearest_even]; try lia.
  destruct (Z.even m); lia.
Qed.

(** The rounding step of every operation keeps the sign it is given. *)
Lemma binary_round_aux_signed (s : bool) (m e : Z) (l : location) :
  0 <= m -> signed s (binary_round_aux 53 1024 s m e l).
Proof.
  intros Hm. unfold binary_round_aux.
  pose proof (shr_fexp_nonneg m e l Hm) as H1.
  destruct (shr_fexp 53 1024 m e l) as [mrs' e']. cbn [fst] in H1.
  pose proof (round_nearest_even_nonneg _ (loc_of_shr_record mrs') H1) as H2.
  pose proof (shr_fexp_nonneg _ e' loc_Exact H2) as H3.
  destruct (shr_fexp 53 1024 _ e' loc_Exact) as [mrs'' e'']. cbn [fst] in H3.
  destruct (shr_m mrs'') as [| m3 | m3]; try lia; cbn [signed];
    [reflexivity |].
  destruct (e'' <=? 1024 - 53); reflexivity.
Qed.

(** From an exponent in range, the rounding step does not reach zero. *)
Lemma binary_round_aux_class (s : bool) (m : positive) (e : Z) (l : location) :
  -1074 <= e ->
  (exists m' e',
      binary_round_aux 53 1024 s (Zpos m) e l = S754_finite s m' e')
  \/ binary_round_aux 53 1024 s (Zpos m) e l = S754_infinity s.
Proof.
  intros He. unfold binary_round_aux.
  pose proof (shr_fexp_pos m e l He) as [H1 H2].
  destruct (shr_fexp 53 1024 (Zpos m) e l) as [mrs' e'].
  cbn [fst snd] in H1, H2.
  pose proof (round_nearest_even_pos _ (loc_of_shr_record mrs') H1) as H3.
  destruct (round_nearest_even (shr_m mrs') (loc_of_shr_record mrs'))
    as [| m2 | m2]; try lia.
  pose proof (shr_fexp_pos m2 e' loc_Exact H2) as [H4 _].
  destruct (shr_fexp 53 1024 (Zpos m2) e' loc_Exact) as [mrs'' e''].
  cbn [fst] in H4.
  destruct (shr_m mrs'') as [| m3 | m3]; try lia.
  destruct (e'' <=? 1024 - 53); [left; eauto | now right].
Qed.

(** An integer other than 0 converts to a double other than zero, with its
    sign; only the integer 0 makes the divisor of a division zero. *)
Lemma of_int_class (n : Z) :
  n <> 0 ->
  (exists m e, of_int n = S754_finite (n <? 0) m e)
  \/ of_int n = S754_infinity (n <? 0).
Proof.
  intros Hn. unfold of_int, prec, emax, binary_normalize.
  destruct n as [| p | p]; [contradiction | |];
    unfold binary_round, shl_align, fexp, emin;
    destruct (Z.max (Zpos (digits2_pos p) + 0 - 53) (3 - 1024 - 53) - 0)
      as [| q | q] eqn:E;
    apply binary_round_aux_class; lia.
Qed.

Lemma of_int_finite (n : Z) :
  n <> 0 -> is_infinite (of_int n) = false ->
  exists m e, of_int n = S754_finite (n <? 0) m e.
Proof.
  intros Hn Hfin. destruct (of_int_class n Hn) as [H | H]; [exact H |].
  rewrite H in Hfin. discriminate.
Qed.

Lemma mul_signed (x : float) (sx sy : bool) (my : positive) (ey : Z) :
  signed sx x -> signed (xorb sx sy) (mul x (S754_finite sy my ey)).
Proof.
  destruct x as [s | s | | s m e]; cbn [signed]; try contradiction;
    intros <-; unfold mul; cbn [SFmul signed]; try reflexivity.
  apply (binary_round_aux_signed (xorb s sy)). lia.
Qed.

Lemma div_signed (x : float) (sx sy : bool) (my : positive) (ey : Z) :
  signed sx x -> signed (xorb sx sy) (div x (S754_finite sy my ey)).
Proof.
  destruct x as [s | s | | s m e]; cbn [signed]; try contradiction;
    intros <-; unfold div; cbn [SFdiv signed]; try reflexivity.
  unfold SFdiv_core_binary.
  set (m' := match _ - _ - _ with Z0 => _ | Zpos _ => _ | Zneg _ => _ end).
  assert (Hm' : 0 <= m').
  { subst m'. destruct (_ - _ - _); try lia. apply Z.shiftl_nonneg. lia. }
  pose proof (Z.div_pos m' (Zpos my) Hm' eq_refl) as Hq.
  unfold Z.div in Hq. destruct (Z.div_eucl m' (Zpos my)) as [q r].
  now apply binary_round_aux_signed.
Qed.

Lemma round_signed (x : float) (s : bool) (ndigits : nat) :
  signed s x -> signed s (round x ndigits).
Proof.
  destruct x as [s' | s' | | s' m e]; cbn [signed round]; try contradiction;
    try (intros <-; reflexivity).
  intros <-. destruct (round_half_even _ _); cbn [signed]; try reflexivity.
  pose proof (div_signed (S754_finite s' p 0) s' false (pow10 ndigits) 0
                         eq_refl) as H.
  rewrite xorb_false_r in H. exact H.
Qed.

(** ** More of [calculate_co2_footprint] *)

Lemma distance_factors_unknown (t : string) :
  (forall m, t <> mode_name m) -> getitem distance_factors t = raise (KeyError t).
Proof.
  intros H. unfold getitem, distance_factors. cbn [dict_get].
  rewrite (proj2 (String.eqb_neq "Auto" t)) by (intros E; apply (H Car); now subst).
  rewrite (proj2 (String.eqb_neq "Flugzeug" t))
    by (intros E; apply (H Plane); now subst).
  rewrite (proj2 (String.eqb_neq "Zug" t))
    by (intros E; apply (H Train); now subst).
  rewrite (proj2 (String.eqb_neq "Bus" t)) by (intros E; apply (H Bus); now subst).
  rewrite (proj2 (String.eqb_neq "Motorrad" t))
    by (intros E; apply (H Motorcycle); now subst).
  reflexivity.
Qed.

Lemma for_transports_unknown (direct_distance : float) (n : Z)
      (ms : list mode) (bad : string) (rest : list string) :
  n <> 0 -> is_infinite (of_int n) = false ->
  (forall m, bad <> mode_name m) ->
  forall results,
    for_transports direct_distance n (map mode_name ms ++ bad :: rest) results
    = raise (KeyError bad).
Proof.
  intros Hn Hfin Hbad.
  induction ms as [| m ms IH]; intros results; cbn [map app for_transports].
  - unfold loop_body. now rewrite (distance_factors_unknown bad Hbad).
  - rewrite (loop_body_mode _ _ _ Hn Hfin). cbn [bind ret]. apply IH.
Qed.

(** Everything that a returned value rests on. *)
Lemma calculate_returned_full {G : Geo} (start end_ : string)
      (transports : list string) (n : Z) (rows : list row) (dd : float)
      (sc ec : coords) :
  returned (calculate_co2_footprint start end_ transports n)
  = Some (rows, dd, sc, ec) ->
  exists sl el km,
    geocode start = inr (Some sl) /\ geocode end_ = inr (Some el) /\
    sc = (latitude sl, longitude sl) /\ ec = (latitude el, longitude el) /\
    geodesic_kilometers sc ec = inr km /\ dd = round km 2 /\
    for_transports dd n transports [] = inr rows /\
    shown (calculate_co2_footprint start end_ transports n) = [].
Proof.
  unfold calculate_co2_footprint, try_block.
  destruct (geocode start) as [e | [sl |]]; cbn [bind returned];
    try discriminate;
    (destruct (geocode end_) as [e | [el |]]; cbn [bind returned];
     try discriminate).
  destruct (geodesic_kilometers _ _) as [e | km] eqn:Hkm; cbn [bind returned];
    try discriminate.
  destruct (for_transports _ _ _ _) as [e | rs] eqn:Hrows;
    cbn [bind returned shown]; try discriminate.
  intros H. injection H as <- <- <- <-. exists sl, el, km.
  repeat split; assumption.
Qed.

(** X1.  One unknown name among the selected modes spoils the whole
    calculation: with both places resolved and a traveler count that can be
    divided by, the rows already computed for the names before it are
    dropped, nothing is returned, and the error shown is the missing key,
    the first unknown name. *)
Theorem unknown_mode_gives_no_rows
        {G : Geo} (start end_ : string) (sl el : Location) (km : float)
        (ms : list mode) (bad : string) (rest : list string)
        (num_travelers : Z) :
  geocode start = inr (Some sl) ->
  geocode end_ = inr (Some el) ->
  geodesic_kilometers (latitude sl, longitude sl) (latitude el, longitude el)
  = inr km ->
  num_travelers <> 0 ->
  is_infinite (of_int num_travelers) = false ->
  (forall m, bad <> mode_name m) ->
  calculate_co2_footprint start end_ (map mode_name ms ++ bad :: rest)
                          num_travelers
  = {| returned := None;
       shown := [Fehler_bei_der_Berechnung (KeyError bad)] |}.
Proof.
  intros Hs He Hkm Hn Hfin Hbad.
  rewrite (calculate_resolved _ _ _ _ _ _ _ Hs He Hkm).
  now rewrite for_transports_unknown.
Qed.

Lemma unknown_mode_gives_no_rows_witness :
  @calculate_co2_footprint (fixed_geo (of_int 100))
     "Zürich, Schweiz" "Berlin, Deutschland"
     (map mode_name [Car; Train] ++ "Fahrrad" :: ["Bus"]) 2
  = {| returned := None;
       shown := [Fehler_bei_der_Berechnung (KeyError "Fahrrad")] |}.
Proof.
  eapply (@unknown_mode_gives_no_rows (fixed_geo (of_int 100))
            "Zürich, Schweiz" "Berlin, Deutschland" _ _ (of_int 100)
            [Car; Train] "Fahrrad" ["Bus"] 2);
    try reflexivity; try lia.
  intros []; discriminate.
Defined.

(** X2.  An empty selection of modes is not an error: with both places
    resolved the function returns an empty table together with the rounded
    direct distance and the coordinates, for every traveler count, also 0,
    because no division takes place. *)
Theorem empty_selection_returns_empty_table
        {G : Geo} (start end_ : string) (sl el : Location) (km : float)
        (num_travelers : Z) :
  geocode start = inr (Some sl) ->
  geocode end_ = inr (Some el) ->
  geodesic_kilometers (latitude sl, longitude sl) (latitude el, longitude el)
  = inr km ->
  calculate_co2_footprint start end_ [] num_travelers
  = {| returned := Some ([], round km 2, (latitude sl, longitude sl),
                         (latitude el, longitude el));
       shown := [] |}.
Proof.
  intros Hs He Hkm. now rewrite (calculate_resolved _ _ _ _ _ _ _ Hs He Hkm).
Qed.

Lemma empty_selection_returns_empty_table_witness :
  exists sc ec,
    @calculate_co2_footprint (fixed_geo (lit 671034 3))
       "Zürich, Schweiz" "Berlin, Deutschland" [] 0
    = {| returned := Some ([], lit 67103 2, sc, ec); shown := [] |}.
Proof.
  do 2 eexists.
  rewrite (@empty_selection_returns_empty_table (fixed_geo (lit 671034 3))
             "Zürich, Schweiz" "Berlin, Deutschland"
             {| latitude := lit 473744 4; longitude := lit 85410 4 |}
             {| latitude := lit 525170 4; longitude := lit 133889 4 |}
             (lit 671034 3) 0);
    reflexivity.
Defined.

(** X3.  Every exception of a collaborator is caught and reported, and
    nothing is returned: an exception of the start lookup; an exception of
    the end lookup, which is made whatever the start lookup answered and
    therefore takes precedence over a start that was not found; and, with
    both places found, an exception of the distance computation. *)
Theorem collaborator_exception_is_reported
        {G : Geo} (start end_ : string) (transports : list string)
        (num_travelers : Z) (e : exn) :
  geocode start = inl e
  \/ (exists answer, geocode start = inr answer /\ geocode end_ = inl e)
  \/ (exists sl el,
         geocode start = inr (Some sl) /\ geocode end_ = inr (Some el) /\
         geodesic_kilometers (latitude sl, longitude sl)
                             (latitude el, longitude el) = inl e) ->
  calculate_co2_footprint start end_ transports num_travelers
  = {| returned := None; shown := [Fehler_bei_der_Berechnung e] |}.
Proof.
  unfold calculate_co2_footprint, try_block.
  intros [Hs | [(a & Hs & He) | (sl & el & Hs & He & Hkm)]].
  - now rewrite Hs.
  - rewrite Hs, He. reflexivity.
  - rewrite Hs, He. cbn [bind]. now rewrite Hkm.
Qed.

Lemma collaborator_exception_is_reported_witness :
  let G := {| geocode := fun place =>
                if String.eqb place "Atlantis" then ret None
                else raise (LibraryError "timeout");
              geodesic_kilometers := fun _ _ => ret (of_int 100) |} in
  calculate_co2_footprint "Atlantis" "Berlin, Deutschland" ["Auto"] 1
  = {| returned := None;
       shown := [Fehler_bei_der_Berechnung (LibraryError "timeout")] |}.
Proof.
  cbv zeta.
  apply collaborator_exception_is_reported.
  right. left. exists None. split; reflexivity.
Defined.

(** *** Signs of the returned values *)

Lemma not_negative_iff (x : float) :
  not_negative x <-> is_nan x = false /\ ltb x (of_int 0) = false.
Proof.
  destruct x as [s | [|] | | [|] m e]; cbn [not_negative is_nan];
    split; try tauto; try (intros [H1 H2]; discriminate);
    try (intros _; split; reflexivity); try discriminate;
    try (destruct s; intros _; split; reflexivity).
Qed.

Lemma not_negative_mul (x : float) (my : positive) (ey : Z) :
  not_negative x -> not_negative (mul x (S754_finite false my ey)).
Proof.
  destruct x as [s | s | | s m e]; cbn [not_negative]; try contradiction.
  - intros _. exact I.
  - intros ->. reflexivity.
  - intros ->.
    pose proof (mul_signed (S754_finite false m e) false false my ey eq_refl)
      as H.
    destruct (mul _ _); cbn [signed not_negative] in *; auto.
Qed.

Lemma not_negative_div (x : float) (my : positive) (ey : Z) :
  not_negative x -> not_negative (div x (S754_finite false my ey)).
Proof.
  destruct x as [s | s | | s m e]; cbn [not_negative]; try contradiction.
  - intros _. exact I.
  - intros ->. reflexivity.
  - intros ->.
    pose proof (div_signed (S754_finite false m e) false false my ey eq_refl)
      as H.
    destruct (div _ _); cbn [signed not_negative] in *; auto.
Qed.

Lemma not_negative_round (x : float) (ndigits : nat) :
  not_negative x -> not_negative (round x ndigits).
Proof.
  destruct x as [s | s | | s m e]; cbn [not_negative]; try contradiction;
    try (intros H; exact H).
  intros ->.
  pose proof (round_signed (S754_finite false m e) false ndigits eq_refl) as H.
  destruct (round _ _); cbn [signed not_negative] in *; auto.
Qed.

Lemma distance_factor_finite (m : mode) :
  exists my ey, distance_factor m = S754_finite false my ey.
Proof. destruct m; do 2 eexists; vm_compute; reflexivity. Qed.

Lemma emission_factor_finite (m : mode) :
  exists my ey, emission_factor m = S754_finite false my ey.
Proof. destruct m; do 2 eexists; vm_compute; reflexivity. Qed.

(** A row exists only for a traveler count that can be divided by. *)
Lemma loop_body_travelers (direct_distance : float) (n : Z) (t : string)
      (r : row) :
  loop_body direct_distance n t = inr r ->
  n <> 0 /\ is_infinite (of_int n) = false.
Proof.
  unfold loop_body. intros H.
  destruct (getitem distance_factors t); [discriminate |]. cbn [bind] in H.
  destruct (getitem emission_factors t); [discriminate |]. cbn [bind] in H.
  unfold truediv_int, float_of_int in H.
  destruct (is_infinite (of_int n)); [discriminate |]. cbn [bind ret] in H.
  destruct (Z.eqb_spec n 0); [discriminate |]. now split.
Qed.

Lemma rounded_row_not_negative (direct_distance : float) (n : Z) (m : mode) :
  not_negative direct_distance -> 0 < n ->
  is_infinite (of_int n) = false ->
  not_negative (Distanz_km (rounded_row direct_distance n m)) /\
  not_negative (CO2_pro_Person_kg (rounded_row direct_distance n m)) /\
  not_negative (Gesamt_CO2_kg (rounded_row direct_distance n m)).
Proof.
  intros Hd Hn Hfin. unfold rounded_row. cbn [Distanz_km CO2_pro_Person_kg
                                               Gesamt_CO2_kg].
  destruct (distance_factor_finite m) as (my & ey & ->).
  destruct (emission_factor_finite m) as (my' & ey' & ->).
  destruct (of_int_finite n ltac:(lia) Hfin) as (mn & en & ->).
  replace (n <? 0) with false by (symmetry; apply Z.ltb_ge; lia).
  repeat split;
    repeat first [apply not_negative_round | apply not_negative_div
                 | apply not_negative_mul]; exact Hd.
Qed.

(** X4.  If the distance collaborator delivers a number that is not
    negative and there is at least one traveler, then no returned value is
    NaN or negative: neither the direct distance nor the distance, the
    value per person or the total of any row. *)
Theorem returned_values_are_not_negative
        {G : Geo} (start end_ : string) (transports : list string)
        (num_travelers : Z) (rows : list row) (direct_distance km : float)
        (sc ec : coords) :
  returned (calculate_co2_footprint start end_ transports num_travelers)
  = Some (rows, direct_distance, sc, ec) ->
  geodesic_kilometers sc ec = inr km ->
  is_nan km = false ->
  ltb km (of_int 0) = false ->
  0 < num_travelers ->
  let fine v := is_nan v = false /\ ltb v (of_int 0) = false in
  fine direct_distance /\
  Forall (fun r =>
            fine (Distanz_km r) /\ fine (CO2_pro_Person_kg r) /\
            fine (Gesamt_CO2_kg r))
         rows.
Proof.
  intros H Hkm Hnan Hneg Hn. cbv zeta.
  apply calculate_returned_full in H.
  destruct H as (sl & el & km' & _ & _ & _ & _ & Hkm' & -> & Hrows & _).
  rewrite Hkm in Hkm'. injection Hkm' as <-.
  assert (Hdd : not_negative (round km 2))
    by (apply not_negative_round, not_negative_iff; now split).
  split; [now apply not_negative_iff |].
  assert (Hacc : Forall (fun r =>
                   not_negative (Distanz_km r) /\
                   not_negative (CO2_pro_Person_kg r) /\
                   not_negative (Gesamt_CO2_kg r)) rows -> 
                 Forall (fun r =>
                   (is_nan (Distanz_km r) = false /\
                    ltb (Distanz_km r) (of_int 0) = false) /\
                   (is_nan (CO2_pro_Person_kg r) = false /\
                    ltb (CO2_pro_Person_kg r) (of_int 0) = false) /\
                   (is_nan (Gesamt_CO2_kg r) = false /\
                    ltb (Gesamt_CO2_kg r) (of_int 0) = false)) rows).
  { apply Forall_impl. intros r (H1 & H2 & H3).
    repeat split; now apply not_negative_iff. }
  apply Hacc. clear Hacc.
  (* only the rows added by the loop matter: the accumulator is empty *)
  assert (Hgen : forall ts acc rows,
             Forall (fun r =>
                       not_negative (Distanz_km r) /\
                       not_negative (CO2_pro_Person_kg r) /\
                       not_negative (Gesamt_CO2_kg r)) acc ->
             for_transports (round km 2) num_travelers ts acc = inr rows ->
             Forall (fun r =>
                       not_negative (Distanz_km r) /\
                       not_negative (CO2_pro_Person_kg r) /\
                       not_negative (Gesamt_CO2_kg r)) rows).
  { induction ts as [| t ts IH]; intros acc0 rows0 Hacc0 Hrun;
      cbn [for_transports] in Hrun.
    - now injection Hrun as <-.
    - destruct (loop_body (round km 2) num_travelers t) as [e | r] eqn:Hr;
        [discriminate |].
      cbn [bind] in Hrun. apply (IH _ _) in Hrun; [exact Hrun |].
      apply Forall_app. split; [exact Hacc0 |]. constructor; [| constructor].
      destruct (loop_body_travelers _ _ _ _ Hr) as [_ Hfin].
      destruct (loop_body_inv _ _ _ _ Hr) as (m & _ & ->).
      now apply rounded_row_not_negative. }
  apply (Hgen transports [] rows); [constructor | exact Hrows].
Qed.

Lemma returned_values_are_not_negative_witness :
  let G := fixed_geo (lit 671034 3) in
  let sc := (lit 473744 4, lit 85410 4) in
  let ec := (lit 525170 4, lit 133889 4) in
  let fine v := is_nan v = false /\ ltb v (of_int 0) = false in
  fine (lit 67103 2) /\
  Forall (fun r =>
            fine (Distanz_km r) /\ fine (CO2_pro_Person_kg r) /\
            fine (Gesamt_CO2_kg r))
         [rounded_row (lit 67103 2) 1 Car].
Proof.
  cbv zeta.
  apply (@returned_values_are_not_negative (fixed_geo (lit 671034 3))
           "Zürich, Schweiz" "Berlin, Deutschland" ["Auto"] 1
           [rounded_row (lit 67103 2) 1 Car] (lit 67103 2) (lit 671034 3)
           (lit 473744 4, lit 85410 4) (lit 525170 4, lit 133889 4));
    try reflexivity; try lia.
Defined.

Lemma mode_name_injective (m m' : mode) : mode_name m = mode_name m' -> m = m'.
Proof. destruct m, m'; cbn; intros H; try reflexivity; discriminate H. Qed.

(** X5.  The traveler count enters the value per person only: two
    successful calculations for the same places and modes with different
    traveler counts return the same direct distance and coordinates and,
    row by row, the same mode, distance and total. *)
Theorem traveler_count_changes_only_the_share
        {G : Geo} (start end_ : string) (transports : list string)
        (n1 n2 : Z) (rows1 rows2 : list row) (dd1 dd2 : float)
        (sc1 ec1 sc2 ec2 : coords) :
  returned (calculate_co2_footprint start end_ transports n1)
  = Some (rows1, dd1, sc1, ec1) ->
  returned (calculate_co2_footprint start end_ transports n2)
  = Some (rows2, dd2, sc2, ec2) ->
  dd1 = dd2 /\ sc1 = sc2 /\ ec1 = ec2 /\
  Forall2 (fun r1 r2 =>
             Transportmittel r1 = Transportmittel r2 /\
             Distanz_km r1 = Distanz_km r2 /\
             Gesamt_CO2_kg r1 = Gesamt_CO2_kg r2)
          rows1 rows2.
Proof.
  intros H1 H2.
  apply calculate_returned_full in H1, H2.
  destruct H1 as (sl1 & el1 & km1 & Hs1 & He1 & -> & -> & Hkm1 & -> & Hr1 & _).
  destruct H2 as (sl2 & el2 & km2 & Hs2 & He2 & -> & -> & Hkm2 & -> & Hr2 & _).
  rewrite Hs1 in Hs2. injection Hs2 as <-.
  rewrite He1 in He2. injection He2 as <-.
  rewrite Hkm1 in Hkm2. injection Hkm2 as <-.
  repeat split; try reflexivity.
  apply for_transports_inv in Hr1, Hr2.
  destruct Hr1 as (new1 & -> & F1). destruct Hr2 as (new2 & -> & F2).
  cbn [app]. revert new2 F2.
  induction F1 as [| t r1 ts rs1 (m1 & -> & ->) _ IH]; intros new2 F2;
    inversion F2 as [| t' r2 ts' rs2 (m2 & Hm & ->) F2']; subst;
    constructor; [| now apply IH].
  apply mode_name_injective in Hm. subst m2. repeat split.
Qed.

Lemma traveler_count_changes_only_the_share_witness :
  let G := fixed_geo (of_int 100) in
  Forall2 (fun r1 r2 =>
             Transportmittel r1 = Transportmittel r2 /\
             Distanz_km r1 = Distanz_km r2 /\
             Gesamt_CO2_kg r1 = Gesamt_CO2_kg r2)
          [rounded_row (of_int 100) 1 Car; rounded_row (of_int 100) 1 Train]
          [rounded_row (of_int 100) 3 Car; rounded_row (of_int 100) 3 Train].
Proof.
  cbv zeta.
  apply (@traveler_count_changes_only_the_share (fixed_geo (of_int 100))
           "Zürich, Schweiz" "Berlin, Deutschland" ["Auto"; "Zug"] 1 3
           [rounded_row (of_int 100) 1 Car; rounded_row (of_int 100) 1 Train]
           [rounded_row (of_int 100) 3 Car; rounded_row (of_int 100) 3 Train]
           (of_int 100) (of_int 100)
           (lit 473744 4, lit 85410 4) (lit 525170 4, lit 133889 4)
           (lit 473744 4, lit 85410 4) (lit 525170 4, lit 133889 4));
    vm_compute; reflexivity.
Defined.

(** ** More of [train_co2_model] *)

(** *** The order of the categories *)

Lemma ascii_compare_lt_trans (a b c : ascii) :
  Ascii.compare a b = Lt -> Ascii.compare b c = Lt -> Ascii.compare a c = Lt.
Proof. unfold Ascii.compare. rewrite !N.compare_lt_iff. lia. Qed.

Lemma string_compare_refl (s : string) : String.compare s s = Eq.
Proof.
  pose proof (String.compare_antisym s s) as H.
  destruct (String.compare s s); cbn in H; congruence.
Qed.

Lemma string_compare_lt_trans (s1 s2 s3 : string) :
  String.compare s1 s2 = Lt -> String.compare s2 s3 = Lt ->
  String.compare s1 s3 = Lt.
Proof.
  revert s2 s3.
  induction s1 as [| a s1 IH]; intros [| b s2] [| c s3]; cbn;
    try discriminate; try reflexivity.
  destruct (Ascii.compare a b) eqn:Eab; try discriminate;
    destruct (Ascii.compare b c) eqn:Ebc; try discriminate; intros H1 H2.
  - apply Ascii.compare_eq_iff in Eab, Ebc. subst.
    assert (Ecc : Ascii.compare c c = Eq)
      by (unfold Ascii.compare; apply N.compare_refl).
    rewrite Ecc. eauto.
  - apply Ascii.compare_eq_iff in Eab. subst. now rewrite Ebc.
  - apply Ascii.compare_eq_iff in Ebc. subst. now rewrite Eab.
  - now rewrite (ascii_compare_lt_trans _ _ _ Eab Ebc).
Qed.

Lemma insert_sorted_Sorted (s : string) (l : list string) :
  Sorted (fun a b => String.compare a b = Lt) l ->
  Sorted (fun a b => String.compare a b = Lt) (insert_sorted s l).
Proof.
  induction 1 as [| t l Hl IH Ht]; cbn [insert_sorted].
  - repeat constructor.
  - destruct (String.compare s t) eqn:E.
    + now constructor.
    + constructor; [now constructor | now constructor].
    + constructor; [exact IH |].
      assert (Hts : String.compare t s = Lt)
        by (rewrite String.compare_antisym, E; reflexivity).
      destruct l as [| u l]; cbn [insert_sorted].
      * now constructor.
      * destruct (String.compare s u); constructor;
          try exact Hts; now inversion Ht.
Qed.

Lemma categories_StronglySorted (arr : list string) :
  StronglySorted (fun a b => String.compare a b = Lt) (categories arr).
Proof.
  apply Sorted_StronglySorted.
  - intros x y z. apply string_compare_lt_trans.
  - unfold categories. induction arr as [| a arr IH]; cbn [fold_right];
      [constructor | now apply insert_sorted_Sorted].
Qed.

Lemma StronglySorted_NoDup (l : list string) :
  StronglySorted (fun a b => String.compare a b = Lt) l -> NoDup l.
Proof.
  induction 1 as [| a l _ IH Ha]; constructor; [| exact IH].
  intros Hin. rewrite Forall_forall in Ha. specialize (Ha a Hin).
  rewrite string_compare_refl in Ha. discriminate.
Qed.

Lemma categories_NoDup (arr : list string) : NoDup (categories arr).
Proof. apply StronglySorted_NoDup, categories_StronglySorted. Qed.

(** Two strictly ascending lists with the same elements are equal. *)
Lemma StronglySorted_unique (l1 l2 : list string) :
  StronglySorted (fun a b => String.compare a b = Lt) l1 ->
  StronglySorted (fun a b => String.compare a b = Lt) l2 ->
  (forall x, In x l1 <-> In x l2) -> l1 = l2.
Proof.
  intros H1. revert l2.
  induction H1 as [| a l1 Hs1 IH Ha]; intros l2 H2 Hin.
  - destruct l2 as [| b l2]; [reflexivity |].
    exfalso. apply (Hin b). now left.
  - destruct H2 as [| b l2 Hs2 Hb].
    + exfalso. apply (Hin a). now left.
    + rewrite Forall_forall in Ha, Hb.
      assert (Hab : a = b).
      { destruct (proj1 (Hin a) (or_introl eq_refl)) as [-> | Hal2];
          [reflexivity |].
        destruct (proj2 (Hin b) (or_introl eq_refl)) as [-> | Hbl1];
          [reflexivity |].
        pose proof (Hb a Hal2) as Hba. pose proof (Ha b Hbl1) as Hab.
        pose proof (string_compare_lt_trans _ _ _ Hab Hba) as Haa.
        rewrite string_compare_refl in Haa. discriminate. }
      subst b. f_equal. apply IH; [exact Hs2 |].
      intros x. split; intros Hx.
      * destruct (proj1 (Hin x) (or_intror Hx)) as [<- | H]; [| exact H].
        specialize (Ha a Hx). rewrite string_compare_refl in Ha.
        discriminate.
      * destruct (proj2 (Hin x) (or_intror Hx)) as [<- | H]; [| exact H].
        specialize (Hb a Hx). rewrite string_compare_refl in Hb.
        discriminate.
Qed.

(** *** Shape of the table *)

Lemma generate_lengths {R : NumpyRandom} :
  let a := fst generate in
  List.length (distances a) = n_samples /\
  List.length (vehicle_ages a) = n_samples /\
  List.length (vehicle_types a) = n_samples /\
  List.length (seasons a) = n_samples /\
  List.length (traffic_levels a) = n_samples /\
  List.length (noise a) = n_samples.
Proof.
  unfold generate.
  pose proof (draws_length (uniform (of_int 10) (of_int 1000)) n_samples
                           (seed 42)) as L1.
  destruct (draws n_samples (uniform _ _) (seed 42)) as [ds s1].
  pose proof (draws_length (randint 0 21) n_samples s1) as L2.
  destruct (draws n_samples (randint 0 21) s1) as [ages s2].
  pose proof (draws_length (choice vehicle_type_choices) n_samples s2) as L3.
  destruct (draws n_samples (choice vehicle_type_choices) s2) as [tys s3].
  pose proof (draws_length (choice season_choices) n_samples s3) as L4.
  destruct (draws n_samples (choice season_choices) s3) as [ses s4].
  pose proof (draws_length (randint 1 11) n_samples s4) as L5.
  destruct (draws n_samples (randint 1 11) s4) as [trs s5].
  pose proof (draws_length (normal (of_int 0) (of_int 5)) n_samples s5) as L6.
  destruct (draws n_samples (normal _ _) s5) as [eps s6].
  cbn [fst distances vehicle_ages vehicle_types seasons traffic_levels noise]
    in *.
  repeat split; assumption.
Qed.

Lemma get_dummies_rows (arr : list string) (prefix : string) :
  Forall (fun column => List.length (snd column) = List.length arr)
         (get_dummies arr prefix).
Proof.
  unfold get_dummies. apply Forall_map, Forall_forall. intros c _.
  cbn [snd]. apply length_map.
Qed.

(** X6.  Whatever the random stream delivers, the table handed to the
    split and to the forest is rectangular: every feature column, the
    indicator columns included, has 1000 rows, and so has the target
    column. *)
Theorem training_table_is_rectangular (R : NumpyRandom) :
  let a := fst generate in
  Forall (fun column => List.length (snd column) = n_samples)
         (features_of a) /\
  List.length (co2_emissions_of a) = n_samples.
Proof.
  cbv zeta. destruct generate_lengths as (L1 & L2 & L3 & L4 & L5 & L6).
  split; [| now apply co2_emissions_length].
  unfold features_of.
  apply Forall_app; split; [| apply Forall_app; split].
  - repeat (constructor; [cbn [snd]; rewrite length_map; assumption |]).
    constructor.
  - rewrite <- L3. apply get_dummies_rows.
  - rewrite <- L4. apply get_dummies_rows.
Qed.

(** *** One-hot rows *)

Lemma filter_eqb_absent (a : string) (l : list string) :
  ~ In a l -> filter (fun c => String.eqb a c) l = [].
Proof.
  induction l as [| c l IH]; intros H; [reflexivity |]. cbn [filter].
  destruct (String.eqb_spec a c) as [<- | _].
  - exfalso. apply H. now left.
  - apply IH. intros Hin. apply H. now right.
Qed.

Lemma count_eqb_NoDup (a : string) (l : list string) :
  NoDup l -> In a l ->
  List.length (filter (fun c => String.eqb a c) l) = 1%nat.
Proof.
  induction 1 as [| c l Hc Hnd IH]; intros Hin; [contradiction |].
  cbn [filter]. destruct (String.eqb_spec a c) as [<- | Hne].
  - cbn [List.length]. now rewrite filter_eqb_absent.
  - destruct Hin as [-> | Hin]; [contradiction | now apply IH].
Qed.

(** X7.  [get_dummies] encodes every sample by exactly one indicator: in
    each row of the training table exactly one vehicle_type column and
    exactly one season column holds True. *)
Theorem training_rows_are_one_hot (R : NumpyRandom) (i : nat) :
  (i < n_samples)%nat ->
  let a := fst generate in
  let hot (column : string * list cell) :=
    match nth_error (snd column) i with
    | Some (BoolCell true) => true
    | _ => false
    end in
  List.length (filter hot (get_dummies (vehicle_types a) "vehicle_type"))
  = 1%nat /\
  List.length (filter hot (get_dummies (seasons a) "season")) = 1%nat.
Proof.
  intros Hi. cbv zeta.
  destruct generate_lengths as (_ & _ & L3 & L4 & _ & _).
  assert (Hgen : forall arr prefix,
             (i < List.length arr)%nat ->
             List.length
               (filter (fun column : string * list cell =>
                          match nth_error (snd column) i with
                          | Some (BoolCell true) => true
                          | _ => false
                          end)
                       (get_dummies arr prefix)) = 1%nat).
  { intros arr prefix Hlt.
    destruct (nth_error_lt arr i Hlt) as [x Hx].
    unfold get_dummies.
    rewrite <- (length_map fst). 
    rewrite <- (count_eqb_NoDup x (categories arr) (categories_NoDup arr))
      by (apply In_categories; eapply nth_error_In; exact Hx).
    induction (categories arr) as [| c cs IH]; [reflexivity |].
    cbn [map filter snd]. rewrite nth_error_map, Hx. cbn [option_map].
    destruct (String.eqb x c); cbn [map List.length]; now rewrite IH. }
  split; apply Hgen; lia.
Qed.

Lemma training_rows_are_one_hot_witness :
  let a := fst (@generate Instances.lowest_rng) in
  let hot (column : string * list cell) :=
    match nth_error (snd column) 0 with
    | Some (BoolCell true) => true
    | _ => false
    end in
  List.length (filter hot (get_dummies (vehicle_types a) "vehicle_type"))
  = 1%nat /\
  List.length (filter hot (get_dummies (seasons a) "season")) = 1%nat.
Proof.
  assert (H : (0 < n_samples)%nat) by (unfold n_samples; lia).
  exact (training_rows_are_one_hot Instances.lowest_rng 0 H).
Defined.

(** *** The recorded columns *)

Lemma append_injective (p a b : string) : (p ++ a = p ++ b)%string -> a = b.
Proof.
  induction p as [| c p IH]; cbn; intros H; [exact H |].
  injection H as H. now apply IH.
Qed.

Lemma prefix_append (p c : string) : String.prefix p (p ++ c) = true.
Proof.
  induction p as [| a p IH]; cbn; [now destruct c |].
  destruct (ascii_dec a a); [exact IH | contradiction].
Qed.

Lemma NoDup_map_append (p : string) (l : list string) :
  NoDup l -> NoDup (map (String.append p) l).
Proof.
  induction 1 as [| x l Hx _ IH]; cbn [map]; constructor; [| exact IH].
  intros Hin. apply in_map_iff in Hin. destruct Hin as (y & Hy & Hin).
  apply append_injective in Hy. now subst y.
Qed.

Lemma In_map_append_prefix (p c : string) (l : list string) :
  In c (map (String.append p) l) -> String.prefix p c = true.
Proof.
  intros H. apply in_map_iff in H. destruct H as (y & <- & _).
  apply prefix_append.
Qed.

(** The names of a table built from three base columns and the indicator
    columns of two lists of categories are pairwise distinct. *)
Lemma schema_NoDup (types seasons : list string) :
  NoDup types -> NoDup seasons ->
  NoDup (["distance"; "vehicle_age"; "traffic_level"]
           ++ map (String.append "vehicle_type_") types
           ++ map (String.append "season_") seasons)%list.
Proof.
  intros Ht Hs. apply NoDup_app.
  - repeat constructor; cbn; intuition discriminate.
  - apply NoDup_app.
    + now apply NoDup_map_append.
    + now apply NoDup_map_append.
    + intros c Hv Hc. apply In_map_append_prefix in Hv, Hc.
      apply prefixes_exclusive in Hv. congruence.
  - intros c Hbase Hrest. apply in_app_or in Hrest.
    destruct Hrest as [Hc | Hc]; apply In_map_append_prefix in Hc;
      cbn [In] in Hbase;
      repeat (destruct Hbase as [<- | Hbase]; [discriminate Hc |]);
      exact Hbase.
Qed.

(** X8.  The column list that [train_co2_model] records starts with
    distance, vehicle_age and traffic_level, and its names are pairwise
    distinct, whatever was drawn. *)
Theorem recorded_columns_are_distinct
        {R : NumpyRandom} {K : Sklearn} (s0 : rng_state)
        (model : estimator) (feature_columns : list string) :
  fst (train_co2_model s0) = inr (model, feature_columns) ->
  firstn 3 feature_columns = ["distance"; "vehicle_age"; "traffic_level"] /\
  NoDup feature_columns.
Proof.
  intros H. rewrite (trained_columns _ _ _ H). split; [reflexivity |].
  apply schema_NoDup; apply categories_NoDup.
Qed.

Lemma recorded_columns_are_distinct_witness :
  exists feature_columns,
    firstn 3 feature_columns = ["distance"; "vehicle_age"; "traffic_level"] /\
    NoDup feature_columns /\ List.length feature_columns = 5%nat.
Proof.
  pose proof (@recorded_columns_are_distinct Instances.lowest_rng
                Instances.checking_sklearn 0
                ["distance"; "vehicle_age"; "traffic_level";
                 "vehicle_type_Kleinwagen"; "season_Frühling"]
                ["distance"; "vehicle_age"; "traffic_level";
                 "vehicle_type_Kleinwagen"; "season_Frühling"]) as H.
  eexists. split; [| split]; [apply H | apply H |]; try reflexivity;
    vm_compute; reflexivity.
Defined.

Lemma cycling_rng_contract : numpy_contract Instances.cycling_rng.
Proof.
  constructor; cbn.
  - intros low high s H. split; [now apply leb_refl_left with high | exact H].
  - intros low high s H. lia.
  - intros options s H. apply nth_In.
    assert (0 < Z.of_nat (List.length options))
      by (destruct options; [contradiction | cbn [List.length]; lia]).
    pose proof (Z.mod_pos_bound s _ H0). lia.
Qed.

(** X9.  If the draws respect numpy's ranges and every vehicle type and
    every season is drawn at least once, the recorded columns are the full
    schema of eleven names in this fixed order, whatever the order in which
    the categories were drawn. *)
Theorem full_sample_records_full_schema
        {R : NumpyRandom} {K : Sklearn} (s0 : rng_state)
        (model : estimator) (feature_columns : list string) :
  numpy_contract R ->
  (forall c, In c vehicle_type_choices -> In c (vehicle_types (fst generate))) ->
  (forall c, In c season_choices -> In c (seasons (fst generate))) ->
  fst (train_co2_model s0) = inr (model, feature_columns) ->
  feature_columns
  = [ "distance"; "vehicle_age"; "traffic_level";
      "vehicle_type_Kleinwagen"; "vehicle_type_Luxusklasse";
      "vehicle_type_Mittelklasse"; "vehicle_type_SUV";
      "season_Frühling"; "season_Herbst"; "season_Sommer";
      "season_Winter" ].
Proof.
  intros HR Htypes Hseasons H. rewrite (trained_columns _ _ _ H).
  destruct (generate_arrays HR) as (_ & (_ & _ & F3 & F4 & _) & _).
  rewrite Forall_forall in F3, F4.
  assert (Ht : categories (vehicle_types (fst generate))
               = ["Kleinwagen"; "Luxusklasse"; "Mittelklasse"; "SUV"]).
  { apply StronglySorted_unique.
    - apply categories_StronglySorted.
    - repeat constructor.
    - intros x. rewrite In_categories. split.
      + intros Hx. specialize (F3 x Hx). cbn in F3 |- *. tauto.
      + intros Hx. apply Htypes. cbn in Hx |- *. tauto. }
  assert (Hs : categories (seasons (fst generate))
               = ["Frühling"; "Herbst"; "Sommer"; "Winter"]).
  { apply StronglySorted_unique.
    - apply categories_StronglySorted.
    - repeat constructor.
    - intros x. rewrite In_categories. split.
      + intros Hx. specialize (F4 x Hx). cbn in F4 |- *. tauto.
      + intros Hx. apply Hseasons. cbn in Hx |- *. tauto. }
  rewrite Ht, Hs. reflexivity.
Qed.

Lemma full_sample_records_full_schema_witness :
  (forall c, In c vehicle_type_choices ->
             In c (vehicle_types (fst (@generate Instances.cycling_rng)))) /\
  (forall c, In c season_choices ->
             In c (seasons (fst (@generate Instances.cycling_rng)))) /\
  exists model feature_columns,
    fst (@train_co2_model Instances.cycling_rng Instances.checking_sklearn 0)
    = inr (model, feature_columns) /\
    feature_columns
    = [ "distance"; "vehicle_age"; "traffic_level";
        "vehicle_type_Kleinwagen"; "vehicle_type_Luxusklasse";
        "vehicle_type_Mittelklasse"; "vehicle_type_SUV";
        "season_Frühling"; "season_Herbst"; "season_Sommer";
        "season_Winter" ].
Proof.
  assert (Hv : forall c, In c vehicle_type_choices ->
                 In c (vehicle_types (fst (@generate Instances.cycling_rng)))).
  { intros c Hc.
    refine (proj1 (In_categories
                     (vehicle_types (fst (@generate Instances.cycling_rng)))
                     c) _).
    vm_compute in Hc |- *. tauto. }
  assert (Hs : forall c, In c season_choices ->
                 In c (seasons (fst (@generate Instances.cycling_rng)))).
  { intros c Hc.
    refine (proj1 (In_categories
                     (seasons (fst (@generate Instances.cycling_rng))) c) _).
    vm_compute in Hc |- *. tauto. }
  assert (H : fst (@train_co2_model Instances.cycling_rng
                     Instances.checking_sklearn 0)
              = inr ([ "distance"; "vehicle_age"; "traffic_level";
                       "vehicle_type_Kleinwagen"; "vehicle_type_Luxusklasse";
                       "vehicle_type_Mittelklasse"; "vehicle_type_SUV";
                       "season_Frühling"; "season_Herbst"; "season_Sommer";
                       "season_Winter" ],
                     [ "distance"; "vehicle_age"; "traffic_level";
                       "vehicle_type_Kleinwagen"; "vehicle_type_Luxusklasse";
                       "vehicle_type_Mittelklasse"; "vehicle_type_SUV";
                       "season_Frühling"; "season_Herbst"; "season_Sommer";
                       "season_Winter" ]))
    by (vm_compute; reflexivity).
  split; [exact Hv |]. split; [exact Hs |].
  eexists _, _. split; [exact H |].
  exact (@full_sample_records_full_schema Instances.cycling_rng
           Instances.checking_sklearn 0 _ _ cycling_rng_contract Hv Hs H).
Defined.

(** A stream that never draws three of the vehicle types records fewer
    columns. *)
Example lowest_rng_columns :
  fst (@train_co2_model Instances.lowest_rng Instances.checking_sklearn 0)
  = inr ([ "distance"; "vehicle_age"; "traffic_level";
           "vehicle_type_Kleinwagen"; "season_Frühling" ],
         [ "distance"; "vehicle_age"; "traffic_level";
           "vehicle_type_Kleinwagen"; "season_Frühling" ]).
Proof. vm_compute. reflexivity. Qed.

(** ** More of [predict_co2_with_ml] *)

Lemma filter_map_count (columns : list string) (target : string)
      (f : string -> list cell) (test : string * list cell -> bool) :
  (forall col, In col columns ->
               test (col, f col) = String.eqb target col) ->
  List.length (filter test (map (fun col => (col, f col)) columns))
  = List.length (filter (fun col => String.eqb target col) columns).
Proof.
  induction columns as [| c columns IH]; intros H; [reflexivity |].
  cbn [map filter]. rewrite (H c) by now left.
  destruct (String.eqb target c); cbn [List.length];
    rewrite IH by (intros col Hc; apply H; now right); reflexivity.
Qed.

(** The number of cells equal to 1 in the columns with a prefix. *)
Lemma ones_of_vehicle_type (distance : float) (vehicle_age : Z)
      (vehicle_type season : string) (traffic_level : Z)
      (columns : list string) :
  NoDup columns ->
  In ("vehicle_type_" ++ vehicle_type) columns ->
  List.length
    (filter (fun column : string * list cell =>
               String.prefix "vehicle_type_" (fst column)
               && match snd column with
                  | [IntCell 1] => true
                  | _ => false
                  end)
            (map (fun col =>
                    (col, scalar (expected_cell distance vehicle_age
                                    vehicle_type season traffic_level col)))
                 columns))
  = 1%nat.
Proof.
  intros Hnd Hin.
  rewrite (filter_map_count columns ("vehicle_type_" ++ vehicle_type)).
  - now apply count_eqb_NoDup.
  - intros col _. cbn [fst snd]. unfold expected_cell, scalar, flag.
    rewrite (String.eqb_sym ("vehicle_type_" ++ vehicle_type) col).
    destruct (String.prefix "vehicle_type_" col) eqn:Hp; cbn [andb].
    + now destruct (String.eqb col ("vehicle_type_" ++ vehicle_type)).
    + destruct (String.eqb_spec col ("vehicle_type_" ++ vehicle_type))
        as [-> | _]; [| reflexivity].
      now rewrite prefix_append in Hp.
Qed.

Lemma ones_of_season (distance : float) (vehicle_age : Z)
      (vehicle_type season : string) (traffic_level : Z)
      (columns : list string) :
  NoDup columns ->
  In ("season_" ++ season) columns ->
  List.length
    (filter (fun column : string * list cell =>
               String.prefix "season_" (fst column)
               && match snd column with
                  | [IntCell 1] => true
                  | _ => false
                  end)
            (map (fun col =>
                    (col, scalar (expected_cell distance vehicle_age
                                    vehicle_type season traffic_level col)))
                 columns))
  = 1%nat.
Proof.
  intros Hnd Hin.
  rewrite (filter_map_count columns ("season_" ++ season)).
  - now apply count_eqb_NoDup.
  - intros col _. cbn [fst snd]. unfold expected_cell, scalar, flag.
    rewrite (String.eqb_sym ("season_" ++ season) col).
    destruct (String.prefix "season_" col) eqn:Hp; cbn [andb].
    + destruct (String.prefix "vehicle_type_" col) eqn:Hv.
      * apply prefixes_exclusive in Hv. congruence.
      * now destruct (String.eqb col ("season_" ++ season)).
    + destruct (String.eqb_spec col ("season_" ++ season))
        as [-> | _]; [| reflexivity].
      now rewrite prefix_append in Hp.
Qed.

(** X10.  If the column list has no duplicates and contains the column of
    the given vehicle type (of the given season), then exactly one
    vehicle_type (season) indicator of the assembled frame is 1. *)
Theorem exactly_one_indicator_is_set
        (distance : float) (vehicle_age : Z) (vehicle_type season : string)
        (traffic_level : Z) (columns : list string) :
  NoDup columns ->
  let ones (prefix : string) (input_data : frame) :=
    List.length
      (filter (fun column : string * list cell =>
                 String.prefix prefix (fst column)
                 && match snd column with
                    | [IntCell 1] => true
                    | _ => false
                    end)
              input_data) in
  exists input_data,
    assemble distance vehicle_age vehicle_type season traffic_level columns
    = inr input_data /\
    (In ("vehicle_type_" ++ vehicle_type) columns ->
     ones "vehicle_type_" input_data = 1%nat) /\
    (In ("season_" ++ season) columns -> ones "season_" input_data = 1%nat).
Proof.
  intros Hnd. cbv zeta. eexists. split; [apply assemble_spec |].
  split; intros Hin;
    [now apply ones_of_vehicle_type | now apply ones_of_season].
Qed.

Lemma exactly_one_indicator_is_set_witness :
  let columns :=
    [ "distance"; "vehicle_age"; "traffic_level";
      "vehicle_type_Kleinwagen"; "vehicle_type_SUV"; "season_Winter" ] in
  NoDup columns /\
  exists input_data,
    assemble (lit 2000 1) 5 "SUV" "Sommer" 7 columns = inr input_data /\
    (In ("vehicle_type_" ++ "SUV") columns ->
     List.length
       (filter (fun column : string * list cell =>
                  String.prefix "vehicle_type_" (fst column)
                  && match snd column with
                     | [IntCell 1] => true
                     | _ => false
                     end)
               input_data) = 1%nat) /\
    (In ("season_" ++ "Sommer") columns ->
     List.length
       (filter (fun column : string * list cell =>
                  String.prefix "season_" (fst column)
                  && match snd column with
                     | [IntCell 1] => true
                     | _ => false
                     end)
               input_data) = 1%nat).
Proof.
  cbv zeta.
  assert (Hnd : NoDup [ "distance"; "vehicle_age"; "traffic_level";
                        "vehicle_type_Kleinwagen"; "vehicle_type_SUV";
                        "season_Winter" ])
    by (repeat constructor; cbn; intuition discriminate).
  split; [exact Hnd |].
  exact (exactly_one_indicator_is_set (lit 2000 1) 5 "SUV" "Sommer" 7 _ Hnd).
Defined.

(** X11.  In a run of the script the frame handed to the model always has
    the columns of the training table, in the same order: the column list
    that the prediction aligns to is the one recorded from that table.  A
    vehicle type and a season that were drawn for the training sample have
    exactly one indicator set. *)
Theorem script_frame_has_training_columns
        {R : NumpyRandom} {K : Sklearn} (s0 : rng_state)
        (model : estimator) (feature_columns : list string)
        (distance : float) (vehicle_age : Z) (vehicle_type season : string)
        (traffic_level : Z) :
  fst (train_co2_model s0) = inr (model, feature_columns) ->
  let ones (prefix : string) (input_data : frame) :=
    List.length
      (filter (fun column : string * list cell =>
                 String.prefix prefix (fst column)
                 && match snd column with
                    | [IntCell 1] => true
                    | _ => false
                    end)
              input_data) in
  exists input_data,
    assemble distance vehicle_age vehicle_type season traffic_level
             feature_columns = inr input_data /\
    columns_of input_data = columns_of (features_of (fst generate)) /\
    (In vehicle_type (vehicle_types (fst generate)) ->
     ones "vehicle_type_" input_data = 1%nat) /\
    (In season (seasons (fst generate)) ->
     ones "season_" input_data = 1%nat).
Proof.
  intros H. cbv zeta.
  assert (Hnd : NoDup feature_columns).
  { rewrite (trained_columns _ _ _ H).
    apply schema_NoDup; apply categories_NoDup. }
  exists (map (fun col =>
                 (col, scalar (expected_cell distance vehicle_age vehicle_type
                                             season traffic_level col)))
              feature_columns).
  pose proof (assemble_spec distance vehicle_age vehicle_type season
                            traffic_level feature_columns) as Ha.
  split; [exact Ha |]. split.
  - rewrite (columns_of_select _ _ _ Ha).
    unfold train_co2_model in H. destruct generate as [a s]. cbn [fst] in *.
    destruct (train_test_split _ _ _ _) as [[[X_train X_test] y_train] y_test].
    cbn [fst] in H.
    destruct (fit _ _ _ _) as [e | m]; [discriminate |]. cbn [bind] in H.
    destruct (predict _ _) as [e | y_pred]; [discriminate |]. cbn [bind] in H.
    destruct (mean_absolute_error _ _) as [e | mae]; [discriminate |].
    cbn [bind ret] in H. now injection H as _ <-.
  - destruct (seen_category_has_column s0 model feature_columns vehicle_type H)
      as [Hv' _].
    destruct (seen_category_has_column s0 model feature_columns season H)
      as [_ Hs'].
    split; intros Hin;
      [apply ones_of_vehicle_type | apply ones_of_season];
      auto.
Qed.

Lemma script_frame_has_training_columns_witness :
  fst (@train_co2_model Instances.lowest_rng Instances.checking_sklearn 0)
  = inr ([ "distance"; "vehicle_age"; "traffic_level";
           "vehicle_type_Kleinwagen"; "season_Frühling" ],
         [ "distance"; "vehicle_age"; "traffic_level";
           "vehicle_type_Kleinwagen"; "season_Frühling" ]) /\
  exists input_data,
    assemble (lit 2000 1) 5 "Kleinwagen" "Frühling" 7
             [ "distance"; "vehicle_age"; "traffic_level";
               "vehicle_type_Kleinwagen"; "season_Frühling" ]
    = inr input_data /\
    columns_of input_data
    = [ "distance"; "vehicle_age"; "traffic_level";
        "vehicle_type_Kleinwagen"; "season_Frühling" ].
Proof.
  assert (H : fst (@train_co2_model Instances.lowest_rng
                     Instances.checking_sklearn 0)
              = inr ([ "distance"; "vehicle_age"; "traffic_level";
                       "vehicle_type_Kleinwagen"; "season_Frühling" ],
                     [ "distance"; "vehicle_age"; "traffic_level";
                       "vehicle_type_Kleinwagen"; "season_Frühling" ]))
    by (vm_compute; reflexivity).
  split; [exact H |].
  destruct (@script_frame_has_training_columns Instances.lowest_rng
              Instances.checking_sklearn 0 _ _ (lit 2000 1) 5 "Kleinwagen"
              "Frühling" 7 H) as (input_data & Ha & Hc & _).
  exists input_data. split; [exact Ha |].
  rewrite Hc. vm_compute. reflexivity.
Defined.

(** ** The section "CO2-Einsparpotential" *)

Import Script.

(** The rows of a successful loop are the rounded rows of the selected
    modes, and a loop that produced a row divided by a usable count. *)
Lemma for_transports_rows (direct_distance : float) (n : Z)
      (ts : list string) (rows : list row) :
  for_transports direct_distance n ts [] = inr rows ->
  exists ms,
    ts = map mode_name ms /\
    rows = map (rounded_row direct_distance n) ms /\
    (ms <> [] -> n <> 0 /\ is_infinite (of_int n) = false).
Proof.
  intros H.
  assert (Hn : ts <> [] -> n <> 0 /\ is_infinite (of_int n) = false).
  { destruct ts as [| t ts]; [congruence |]. intros _.
    cbn [for_transports] in H.
    destruct (loop_body direct_distance n t) as [e | r] eqn:Hr;
      [discriminate |].
    exact (loop_body_travelers _ _ _ _ Hr). }
  apply for_transports_inv in H. destruct H as (new & -> & Hall).
  cbn [app].
  assert (Hms : exists ms, ts = map mode_name ms /\
                           new = map (rounded_row direct_distance n) ms).
  { clear Hn. induction Hall as [| t r ts new (m & -> & ->) _ (ms & -> & ->)].
    - now exists [].
    - now exists (m :: ms). }
  destruct Hms as (ms & -> & ->). exists ms.
  split; [reflexivity |]. split; [reflexivity |].
  intros Hms. apply Hn. destruct ms; [contradiction | discriminate].
Qed.

(** What the scan returns: the first best value of a column of numbers. *)
Lemma idx_extreme_spec (better : float -> float -> bool)
      (le : float -> float -> Prop) :
  (forall x y z, le x y -> le y z -> le x z) ->
  (forall x b, is_nan x = false -> is_nan b = false ->
               better x b = true -> le x b) ->
  (forall x b, is_nan x = false -> is_nan b = false ->
               better x b = false -> le b x) ->
  (forall x, is_nan x = false -> le x x) ->
  forall values i best,
    Forall (fun v => is_nan v = false) values ->
    match best with Some (_, b) => is_nan b = false | None => True end ->
    match idx_extreme better values i best with
    | Some (k, v) =>
        is_nan v = false /\
        (forall y, In y values -> le v y) /\
        match best with Some (_, b) => le v b | None => True end /\
        (best = Some (k, v) \/
         (i <= k)%nat /\ nth_error values (k - i) = Some v)
    | None => values = [] /\ best = None
    end.
Proof.
  intros Htrans Hyes Hno Hrefl.
  induction values as [| x values IH]; intros i best Hall Hbest;
    cbn [idx_extreme].
  - destruct best as [[j b] |]; [| now split].
    repeat split; [exact Hbest | intros y [] | now apply Hrefl | now left].
  - inversion Hall as [| ? ? Hx Hrest]; subst. rewrite Hx.
    destruct best as [[j b] |].
    + destruct (better x b) eqn:E.
      * specialize (IH (S i) (Some (i, x)) Hrest Hx).
        destruct (idx_extreme better values (S i) (Some (i, x)))
          as [[k v] |]; [| now destruct IH].
        destruct IH as (Hv & Hmin & Hle & Hwhere).
        repeat split; [exact Hv | | |].
        -- intros y [<- | Hy]; [exact Hle | now apply Hmin].
        -- apply Htrans with x; [exact Hle | now apply Hyes].
        -- right. destruct Hwhere as [Heq | [Hk Hnth]].
           ++ injection Heq as <- <-. split; [lia |].
              now rewrite Nat.sub_diag.
           ++ split; [lia |].
              replace (k - i)%nat with (S (k - S i)) by lia. exact Hnth.
      * specialize (IH (S i) (Some (j, b)) Hrest Hbest).
        destruct (idx_extreme better values (S i) (Some (j, b)))
          as [[k v] |]; [| now destruct IH].
        destruct IH as (Hv & Hmin & Hle & Hwhere).
        repeat split; [exact Hv | | exact Hle |].
        -- intros y [<- | Hy]; [| now apply Hmin].
           apply Htrans with b; [exact Hle | now apply Hno].
        -- destruct Hwhere as [Heq | [Hk Hnth]]; [now left | right].
           split; [lia |].
           replace (k - i)%nat with (S (k - S i)) by lia. exact Hnth.
    + specialize (IH (S i) (Some (i, x)) Hrest Hx).
      destruct (idx_extreme better values (S i) (Some (i, x)))
        as [[k v] |]; [| now destruct IH].
      destruct IH as (Hv & Hmin & Hle & Hwhere).
      repeat split; [exact Hv | | ].
      * intros y [<- | Hy]; [exact Hle | now apply Hmin].
      * right. destruct Hwhere as [Heq | [Hk Hnth]].
        -- injection Heq as <- <-. split; [lia |]. now rewrite Nat.sub_diag.
        -- split; [lia |].
           replace (k - i)%nat with (S (k - S i)) by lia. exact Hnth.
Qed.

Lemma leb_true_not_nan (x y : float) :
  leb x y = true -> is_nan x = false /\ is_nan y = false.
Proof.
  destruct x as [sx | sx | | sx mx ex], y as [sy | sy | | sy my ey];
    cbn; intros H; try discriminate H; split; reflexivity.
Qed.

Lemma ltb_leb (x y : float) : ltb x y = true -> leb x y = true.
Proof.
  unfold ltb, leb, SFltb, SFleb.
  destruct (SFcompare x y) as [[| |] |]; intros H;
    try discriminate H; reflexivity.
Qed.

(** [idxmin] and [idxmax] on a column of numbers that is not empty. *)
Lemma idxmin_spec (values : list float) :
  values <> [] -> Forall (fun v => is_nan v = false) values ->
  exists i v,
    idxmin values = inr i /\ nth_error values i = Some v /\
    forall y, In y values -> leb v y = true.
Proof.
  intros Hne Hall. unfold idxmin.
  pose proof (idx_extreme_spec ltb (fun x y => leb x y = true)) as H.
  specialize (H (fun x y z Hxy Hyz =>
                   leb_trans x y z (proj1 (leb_true_not_nan _ _ Hxy))
                             (proj2 (leb_true_not_nan _ _ Hxy))
                             (proj2 (leb_true_not_nan _ _ Hyz)) Hxy Hyz)).
  specialize (H (fun x b _ _ Hlt => ltb_leb x b Hlt)).
  specialize (H (fun x b Hx Hb Hlt => proj1 (ltb_false_leb x b Hx Hb) Hlt)).
  specialize (H leb_refl values 0%nat None Hall I).
  destruct (idx_extreme ltb values 0 None) as [[k v] |].
  - destruct H as (_ & Hmin & _ & [Heq | [_ Hnth]]); [discriminate |].
    rewrite Nat.sub_0_r in Hnth. now exists k, v.
  - destruct H as [-> _]. contradiction.
Qed.

Lemma idxmax_spec (values : list float) :
  values <> [] -> Forall (fun v => is_nan v = false) values ->
  exists i v,
    idxmax values = inr i /\ nth_error values i = Some v /\
    forall y, In y values -> leb y v = true.
Proof.
  intros Hne Hall. unfold idxmax.
  pose proof (idx_extreme_spec (fun x b => ltb b x)
                               (fun x y => leb y x = true)) as H.
  specialize (H (fun x y z Hxy Hyz =>
                   leb_trans z y x (proj1 (leb_true_not_nan _ _ Hyz))
                             (proj2 (leb_true_not_nan _ _ Hyz))
                             (proj2 (leb_true_not_nan _ _ Hxy)) Hyz Hxy)).
  specialize (H (fun x b _ _ Hlt => ltb_leb b x Hlt)).
  specialize (H (fun x b Hx Hb Hlt => proj1 (ltb_false_leb b x Hb Hx) Hlt)).
  specialize (H leb_refl values 0%nat None Hall I).
  destruct (idx_extreme (fun x b => ltb b x) values 0 None) as [[k v] |].
  - destruct H as (_ & Hmax & _ & [Heq | [_ Hnth]]); [discriminate |].
    rewrite Nat.sub_0_r in Hnth. now exists k, v.
  - destruct H as [-> _]. contradiction.
Qed.

(** Looking a name up again finds the row it came from, when the name
    determines the row. *)
Lemma first_value_of_row (df : list row) (r : row) (column : row -> float) :
  (forall r1 r2, In r1 df -> In r2 df ->
                 Transportmittel r1 = Transportmittel r2 -> r1 = r2) ->
  In r df ->
  first_value df (Transportmittel r) column = inr (column r).
Proof.
  intros Huniq Hin. unfold first_value.
  destruct (filter (fun r0 => String.eqb (Transportmittel r0)
                                         (Transportmittel r)) df)
    as [| r' l] eqn:E.
  - assert (Hr : In r (filter (fun r0 => String.eqb (Transportmittel r0)
                                                    (Transportmittel r)) df))
      by (apply filter_In; split; [exact Hin | apply String.eqb_refl]).
    rewrite E in Hr. contradiction.
  - assert (Hr' : In r' (filter (fun r0 => String.eqb (Transportmittel r0)
                                                      (Transportmittel r)) df))
      by (rewrite E; now left).
    apply filter_In in Hr'. destruct Hr' as [Hin' Heq].
    apply String.eqb_eq in Heq.
    now rewrite (Huniq r' r Hin' Hin Heq).
Qed.

Lemma rounded_rows_by_name (direct_distance : float) (n : Z) (ms : list mode)
      (r1 r2 : row) :
  In r1 (map (rounded_row direct_distance n) ms) ->
  In r2 (map (rounded_row direct_distance n) ms) ->
  Transportmittel r1 = Transportmittel r2 -> r1 = r2.
Proof.
  intros H1 H2. apply in_map_iff in H1, H2.
  destruct H1 as (m1 & <- & _), H2 as (m2 & <- & _). cbn [rounded_row Transportmittel].
  intros H. now rewrite (mode_name_injective _ _ H).
Qed.

Lemma nth_error_map_inv {A B} (f : A -> B) (l : list A) (i : nat) (y : B) :
  nth_error (map f l) i = Some y ->
  exists x, nth_error l i = Some x /\ f x = y.
Proof.
  rewrite nth_error_map. destruct (nth_error l i) as [x |]; cbn;
    [| discriminate].
  intros H. injection H as <-. now exists x.
Qed.

(** X12.  After a successful calculation with a distance that is a number
    and not negative, at least one traveler and more than one selected
    mode, the comparison never fails: it names two of the selected modes,
    its two values are the values per person of those rows, and every row's
    value per person lies between them. *)
Theorem saving_compares_lowest_and_highest
        {G : Geo} (start end_ : string) (selected_transports : list string)
        (num_travelers : Z) (rows : list row) (direct_distance km : float)
        (sc ec : coords) :
  returned (calculate_co2_footprint start end_ selected_transports
                                    num_travelers)
  = Some (rows, direct_distance, sc, ec) ->
  geodesic_kilometers sc ec = inr km ->
  is_nan km = false ->
  ltb km (of_int 0) = false ->
  0 < num_travelers ->
  (1 < List.length selected_transports)%nat ->
  exists s lowest highest,
    co2_saving selected_transports rows = inr (Some s) /\
    In lowest rows /\ In highest rows /\
    min_co2_transport s = Transportmittel lowest /\
    min_co2 s = CO2_pro_Person_kg lowest /\
    max_co2_transport s = Transportmittel highest /\
    max_co2 s = CO2_pro_Person_kg highest /\
    In (min_co2_transport s) selected_transports /\
    In (max_co2_transport s) selected_transports /\
    forall r, In r rows ->
              leb (min_co2 s) (CO2_pro_Person_kg r) = true /\
              leb (CO2_pro_Person_kg r) (max_co2 s) = true.
Proof.
  intros H Hkm Hnan Hneg Hn Hlen.
  apply calculate_returned_full in H.
  destruct H as (sl & el & km' & _ & _ & _ & _ & Hkm' & -> & Hrows & _).
  rewrite Hkm in Hkm'. injection Hkm' as <-.
  destruct (for_transports_rows _ _ _ _ Hrows) as (ms & -> & -> & Hfin).
  assert (Hms : ms <> [])
    by (destruct ms; [cbn in Hlen; lia | discriminate]).
  destruct (Hfin Hms) as [_ Hfinite]. clear Hfin Hrows.
  set (rows := map (rounded_row (round km 2) num_travelers) ms).
  assert (Hdd : not_negative (round km 2))
    by (apply not_negative_round, not_negative_iff; now split).
  assert (Hcol : Forall (fun v => is_nan v = false)
                        (map CO2_pro_Person_kg rows)).
  { apply Forall_forall. intros v Hv. apply in_map_iff in Hv.
    destruct Hv as (r & <- & Hr). apply in_map_iff in Hr.
    destruct Hr as (m & <- & _).
    destruct (rounded_row_not_negative (round km 2) num_travelers m
                Hdd Hn Hfinite) as (_ & Hp & _).
    now apply not_negative_iff in Hp. }
  assert (Hne : map CO2_pro_Person_kg rows <> [])
    by (subst rows; destruct ms; [contradiction | discriminate]).
  destruct (idxmin_spec _ Hne Hcol) as (i & vmin & Hi & Hnthi & Hmin).
  destruct (idxmax_spec _ Hne Hcol) as (j & vmax & Hj & Hnthj & Hmax).
  destruct (nth_error_map_inv _ _ _ _ Hnthi) as (lowest & Hlo & <-).
  destruct (nth_error_map_inv _ _ _ _ Hnthj) as (highest & Hhi & <-).
  pose proof (nth_error_In _ _ Hlo) as Hlo_in.
  pose proof (nth_error_In _ _ Hhi) as Hhi_in.
  pose proof (rounded_rows_by_name (round km 2) num_travelers ms) as Huniq.
  fold rows in Huniq.
  exists {| min_co2_transport := Transportmittel lowest;
            max_co2_transport := Transportmittel highest;
            min_co2 := CO2_pro_Person_kg lowest;
            max_co2 := CO2_pro_Person_kg highest;
            savings := sub (CO2_pro_Person_kg highest)
                           (CO2_pro_Person_kg lowest);
            saving_percentage :=
              mul (div (sub (CO2_pro_Person_kg highest)
                            (CO2_pro_Person_kg lowest))
                       (CO2_pro_Person_kg highest))
                  (of_int 100) |}, lowest, highest.
  cbn [min_co2_transport max_co2_transport min_co2 max_co2].
  split.
  { unfold co2_saving.
    apply Nat.ltb_lt in Hlen. rewrite Hlen.
    rewrite Hi. cbn [bind]. unfold transport_at at 1. rewrite Hlo.
    cbn [bind ret]. rewrite Hj. cbn [bind].
    unfold transport_at. rewrite Hhi. cbn [bind ret].
    rewrite (first_value_of_row rows lowest _ Huniq Hlo_in).
    rewrite (first_value_of_row rows highest _ Huniq Hhi_in).
    reflexivity. }
  repeat split; try assumption.
  - subst rows. apply in_map_iff in Hlo_in. destruct Hlo_in as (m & <- & Hm).
    cbn [rounded_row Transportmittel]. now apply in_map.
  - subst rows. apply in_map_iff in Hhi_in. destruct Hhi_in as (m & <- & Hm).
    cbn [rounded_row Transportmittel]. now apply in_map.
  - apply Hmin. now apply in_map.
  - apply Hmax. now apply in_map.
Qed.

Lemma saving_compares_lowest_and_highest_witness :
  exists s lowest highest,
    co2_saving ["Auto"; "Zug"]
               [rounded_row (lit 67103 2) 2 Car;
                rounded_row (lit 67103 2) 2 Train] = inr (Some s) /\
    In lowest [rounded_row (lit 67103 2) 2 Car;
               rounded_row (lit 67103 2) 2 Train] /\
    In highest [rounded_row (lit 67103 2) 2 Car;
                rounded_row (lit 67103 2) 2 Train] /\
    min_co2_transport s = Transportmittel lowest /\
    min_co2 s = CO2_pro_Person_kg lowest /\
    max_co2_transport s = Transportmittel highest /\
    max_co2 s = CO2_pro_Person_kg highest /\
    In (min_co2_transport s) ["Auto"; "Zug"] /\
    In (max_co2_transport s) ["Auto"; "Zug"] /\
    forall r, In r [rounded_row (lit 67103 2) 2 Car;
                    rounded_row (lit 67103 2) 2 Train] ->
              leb (min_co2 s) (CO2_pro_Person_kg r) = true /\
              leb (CO2_pro_Person_kg r) (max_co2 s) = true.
Proof.
  apply (@saving_compares_lowest_and_highest (fixed_geo (lit 671034 3))
           "Zürich, Schweiz" "Berlin, Deutschland" ["Auto"; "Zug"] 2
           [rounded_row (lit 67103 2) 2 Car; rounded_row (lit 67103 2) 2 Train]
           (lit 67103 2) (lit 671034 3)
           (lit 473744 4, lit 85410 4) (lit 525170 4, lit 133889 4));
    try reflexivity; try lia. cbn. lia.
Defined.

Example saving_example :
  co2_saving ["Auto"; "Zug"]
             [rounded_row (lit 67103 2) 2 Car;
              rounded_row (lit 67103 2) 2 Train]
  = inr (Some {| min_co2_transport := "Zug";
                 max_co2_transport := "Auto";
                 min_co2 := lit 1745 2;
                 max_co2 := lit 6845 2;
                 savings := sub (lit 6845 2) (lit 1745 2);
                 saving_percentage :=
                   mul (div (sub (lit 6845 2) (lit 1745 2)) (lit 6845 2))
                       (of_int 100) |}).
Proof. vm_compute. reflexivity. Qed.

(** *** The same place twice *)

Lemma rounded_row_zero (n : Z) (m : mode) :
  n <> 0 -> is_infinite (of_int n) = false ->
  CO2_pro_Person_kg (rounded_row (S754_zero false) n m)
  = S754_zero (n <? 0).
Proof.
  intros Hn Hfin. destruct (of_int_finite n Hn Hfin) as (mn & en & E).
  unfold rounded_row. cbn [CO2_pro_Person_kg]. rewrite E.
  destruct m; reflexivity.
Qed.

Lemma idx_extreme_constant (better : float -> float -> bool) (z : float)
      (values : list float) :
  is_nan z = false -> better z z = false ->
  Forall (eq z) values ->
  forall i j, idx_extreme better values i (Some (j, z)) = Some (j, z).
Proof.
  intros Hz Hb. induction 1 as [| x values <- _ IH]; intros i j;
    cbn [idx_extreme]; [reflexivity |].
  rewrite Hz, Hb. apply IH.
Qed.

(** X13.  When the rounded direct distance is zero (start and end are the
    same place) and more than one mode is selected, the comparison names
    the first selected mode as both the lowest and the highest, the saving
    is zero and its percentage is NaN: the division 0/0 is not guarded. *)
Theorem zero_distance_gives_nan_percentage
        {G : Geo} (start end_ : string) (selected_transports : list string)
        (num_travelers : Z) (rows : list row) (sc ec : coords) :
  returned (calculate_co2_footprint start end_ selected_transports
                                    num_travelers)
  = Some (rows, S754_zero false, sc, ec) ->
  (1 < List.length selected_transports)%nat ->
  exists s,
    co2_saving selected_transports rows = inr (Some s) /\
    min_co2_transport s = hd "" selected_transports /\
    max_co2_transport s = hd "" selected_transports /\
    savings s = S754_zero false /\
    is_nan (saving_percentage s) = true.
Proof.
  intros H Hlen.
  apply calculate_returned_full in H.
  destruct H as (sl & el & km & _ & _ & _ & _ & _ & Hdd & Hrows & _).
  destruct (for_transports_rows _ _ _ _ Hrows) as (ms & -> & -> & Hfin).
  destruct ms as [| m ms]; [cbn in Hlen; lia |].
  unfold co2_saving. apply Nat.ltb_lt in Hlen. rewrite Hlen. clear Hlen.
  destruct (Hfin ltac:(discriminate)) as [Hn Hfinite]. clear Hfin Hrows.
  set (z := S754_zero (num_travelers <? 0)).
  assert (Hz : is_nan z = false) by reflexivity.
  assert (Hzz : ltb z z = false) by (subst z; now destruct (_ <? _)).
  assert (Hcol : Forall (eq z)
                   (map CO2_pro_Person_kg
                        (map (rounded_row (S754_zero false) num_travelers)
                             ms))).
  { apply Forall_forall. intros v Hv. apply in_map_iff in Hv.
    destruct Hv as (r & <- & Hr). apply in_map_iff in Hr.
    destruct Hr as (m' & <- & _). symmetry. now apply rounded_row_zero. }
  cbn [map hd]. unfold idxmin, idxmax. cbn [idx_extreme].
  rewrite (rounded_row_zero num_travelers m Hn Hfinite). fold z. rewrite Hz.
  rewrite (idx_extreme_constant ltb z _ Hz Hzz Hcol).
  rewrite (idx_extreme_constant (fun x b => ltb b x) z _ Hz Hzz Hcol).
  cbn [bind ret transport_at nth_error]. 
  unfold first_value. cbn [filter rounded_row Transportmittel].
  rewrite String.eqb_refl. cbn [bind ret CO2_pro_Person_kg].
  rewrite (rounded_row_zero num_travelers m Hn Hfinite).
  fold z. eexists. split; [reflexivity |].
  cbn [min_co2_transport max_co2_transport savings saving_percentage].
  subst z. repeat split; now destruct (num_travelers <? 0).
Qed.

Lemma zero_distance_gives_nan_percentage_witness :
  exists s,
    co2_saving ["Zug"; "Auto"]
               [rounded_row (S754_zero false) 3 Train;
                rounded_row (S754_zero false) 3 Car] = inr (Some s) /\
    min_co2_transport s = "Zug" /\
    max_co2_transport s = "Zug" /\
    savings s = S754_zero false /\
    is_nan (saving_percentage s) = true.
Proof.
  apply (@zero_distance_gives_nan_percentage (fixed_geo (of_int 0))
           "Zürich, Schweiz" "Zürich, Schweiz" ["Zug"; "Auto"] 3
           [rounded_row (S754_zero false) 3 Train;
            rounded_row (S754_zero false) 3 Car]
           (lit 473744 4, lit 85410 4) (lit 473744 4, lit 85410 4));
    [reflexivity | cbn; lia].
Defined.

(** ** The machine-learning section of the script *)

(** X14.  After a successful calculation with "Auto" among the selected
    modes, the two look-ups of the machine-learning section cannot fail:
    the model is asked about the rounded road distance of the car (the
    direct distance times 1.2), and the standard value shown beside its
    answer is the car's value per person.  Only the prediction itself can
    still raise. *)
Theorem ml_analysis_reads_the_car_row
        {G : Geo} {K : Sklearn} (start end_ : string)
        (selected_transports : list string) (num_travelers : Z)
        (rows : list row) (direct_distance : float) (sc ec : coords)
        (vehicle_age : Z) (vehicle_type season : string) (traffic_level : Z)
        (model : estimator) (feature_columns : list string) :
  returned (calculate_co2_footprint start end_ selected_transports
                                    num_travelers)
  = Some (rows, direct_distance, sc, ec) ->
  In "Auto" selected_transports ->
  let auto_distance := round (mul direct_distance (lit 12 1)) 2 in
  let standard_co2 :=
    round (div (mul (mul direct_distance (lit 12 1)) (lit 17 2))
               (of_int num_travelers)) 2 in
  ml_section true selected_transports rows vehicle_age vehicle_type season
             traffic_level model feature_columns
  = (ml_co2 <- predict_co2_with_ml auto_distance vehicle_age vehicle_type
                 season traffic_level model feature_columns ;;
     ret (Analysis auto_distance standard_co2 ml_co2)).
Proof.
  intros H Hauto. cbv zeta.
  apply calculate_returned_full in H.
  destruct H as (sl & el & km & _ & _ & _ & _ & _ & _ & Hrows & _).
  destruct (for_transports_rows _ _ _ _ Hrows) as (ms & -> & -> & _).
  unfold ml_section. rewrite (existsb_eqb_In _ _ Hauto).
  assert (Hcar : In (rounded_row direct_distance num_travelers Car)
                    (map (rounded_row direct_distance num_travelers) ms)).
  { apply in_map. apply in_map_iff in Hauto.
    destruct Hauto as (m & Hm & Hin).
    now rewrite <- (mode_name_injective m Car Hm). }
  pose proof (rounded_rows_by_name direct_distance num_travelers ms) as Huniq.
  pose proof (first_value_of_row _ _ Distanz_km Huniq Hcar) as Hd.
  pose proof (first_value_of_row _ _ CO2_pro_Person_kg Huniq Hcar) as Hp.
  cbn [rounded_row Transportmittel mode_name Distanz_km CO2_pro_Person_kg
       distance_factor emission_factor] in Hd, Hp.
  rewrite Hd, Hp. reflexivity.
Qed.

Lemma ml_analysis_reads_the_car_row_witness :
  @ml_section Instances.checking_sklearn true ["Zug"; "Auto"]
     [rounded_row (lit 67103 2) 2 Train; rounded_row (lit 67103 2) 2 Car]
     5 "SUV" "Winter" 7
     ["distance"; "vehicle_age"; "traffic_level"]
     ["distance"; "vehicle_age"; "traffic_level"]
  = (ml_co2 <- @predict_co2_with_ml Instances.checking_sklearn
                 (round (mul (lit 67103 2) (lit 12 1)) 2) 5 "SUV" "Winter" 7
                 ["distance"; "vehicle_age"; "traffic_level"]
                 ["distance"; "vehicle_age"; "traffic_level"] ;;
     ret (Analysis (round (mul (lit 67103 2) (lit 12 1)) 2)
                   (round (div (mul (mul (lit 67103 2) (lit 12 1)) (lit 17 2))
                               (of_int 2)) 2)
                   ml_co2)).
Proof.
  apply (@ml_analysis_reads_the_car_row (fixed_geo (lit 671034 3))
           Instances.checking_sklearn
           "Zürich, Schweiz" "Berlin, Deutschland" ["Zug"; "Auto"] 2
           [rounded_row (lit 67103 2) 2 Train; rounded_row (lit 67103 2) 2 Car]
           (lit 67103 2)
           (lit 473744 4, lit 85410 4) (lit 525170 4, lit 133889 4));
    [reflexivity | cbn; tauto].
Defined.

(** *** The words of the explanation and the factors of the training data *)

Lemma Z_range_forallb (lo hi : Z) (P : Z -> bool) :
  forallb P (map (fun k => lo + Z.of_nat k) (seq 0 (Z.to_nat (hi - lo + 1))))
  = true ->
  forall z, lo <= z <= hi -> P z = true.
Proof.
  intros H z Hz. rewrite forallb_forall in H. apply H.
  apply in_map_iff. exists (Z.to_nat (z - lo)). split.
  - rewrite Z2Nat.id by lia. lia.
  - apply in_seq. split; [apply Nat.le_0_l |].
    rewrite Nat.add_0_l. apply Z2Nat.inj_lt; lia.
Qed.

(** X15.  For every value that the widgets of the sidebar can deliver, the
    word "erhöht" of the explanation agrees with the factor that the
    training data gave to that value: it is shown for a vehicle type or a
    season exactly when its factor is above 1, and for a vehicle age or a
    traffic level only when the factor is above 1.  The other word is not
    always exact: "Mittelklasse" and "Frühling" have the factor 1 and are
    said to reduce, and an age from 1 to 5 or a traffic level from 2 to 5
    has a factor above 1 and is called neutral. *)
Theorem explanation_agrees_with_training_factors :
  (forall vehicle_type,
      In vehicle_type vehicle_type_options ->
      vehicle_type_says_increase vehicle_type
      = ltb (of_int 1) (type_factor vehicle_type)) /\
  (forall season,
      In season season_options ->
      season_says_increase season = ltb (of_int 1) (season_factor season)) /\
  (forall vehicle_age,
      0 <= vehicle_age <= 20 ->
      ltb (of_int 1) (age_factor vehicle_age) = (0 <? vehicle_age) /\
      (vehicle_age_says_increase vehicle_age = true ->
       ltb (of_int 1) (age_factor vehicle_age) = true)) /\
  (forall traffic_level,
      1 <= traffic_level <= 10 ->
      ltb (of_int 1) (traffic_factor traffic_level) = (1 <? traffic_level) /\
      (traffic_says_increase traffic_level = true ->
       ltb (of_int 1) (traffic_factor traffic_level) = true)) /\
  type_factor "Mittelklasse" = of_int 1 /\
  season_factor "Frühling" = of_int 1.
Proof.
  split; [| split; [| split; [| split; [| split]]]].
  - intros vt H. cbn in H.
    repeat (destruct H as [<- | H]; [reflexivity |]). contradiction.
  - intros s H. cbn in H.
    repeat (destruct H as [<- | H]; [reflexivity |]). contradiction.
  - intros a Ha.
    pose proof (Z_range_forallb 0 20
                  (fun a => Bool.eqb (ltb (of_int 1) (age_factor a)) (0 <? a)
                            && implb (vehicle_age_says_increase a)
                                     (ltb (of_int 1) (age_factor a)))
                  ltac:(vm_compute; reflexivity) a Ha) as H.
    cbv beta in H. apply andb_prop in H. destruct H as [H1 H2].
    apply Bool.eqb_prop in H1. split; [exact H1 |].
    intros Hs. now rewrite Hs in H2.
  - intros t Ht.
    pose proof (Z_range_forallb 1 10
                  (fun t => Bool.eqb (ltb (of_int 1) (traffic_factor t))
                                     (1 <? t)
                            && implb (traffic_says_increase t)
                                     (ltb (of_int 1) (traffic_factor t)))
                  ltac:(vm_compute; reflexivity) t Ht) as H.
    cbv beta in H. apply andb_prop in H. destruct H as [H1 H2].
    apply Bool.eqb_prop in H1. split; [exact H1 |].
    intros Hs. now rewrite Hs in H2.
  - vm_compute. reflexivity.
  - vm_compute. reflexivity.
Qed.

Lemma explanation_agrees_with_training_factors_witness :
  vehicle_type_says_increase "SUV" = ltb (of_int 1) (type_factor "SUV") /\
  ltb (of_int 1) (age_factor 3) = (0 <? 3) /\
  ltb (of_int 1) (traffic_factor 7) = true.
Proof.
  destruct explanation_agrees_with_training_factors
    as (Hv & _ & Ha & Ht & _).
  split; [apply Hv; cbn; tauto |].
  split; [exact (proj1 (Ha 3 ltac:(lia))) |].
  exact (proj2 (Ht 7 ltac:(lia)) eq_refl).
Defined.

(** ** The chart of the ten most important features *)

Lemma precedes_trans (a b c : string * float) :
  precedes a b = true -> precedes b c = true -> precedes a c = true.
Proof.
  unfold precedes. intros Hab Hbc.
  destruct (is_nan (snd c)) eqn:Hc; [apply orb_true_r |].
  rewrite orb_false_r in Hbc |- *.
  destruct (leb_true_not_nan _ _ Hbc) as [_ Hb].
  rewrite Hb, orb_false_r in Hab.
  destruct (leb_true_not_nan _ _ Hab) as [_ Ha].
  exact (leb_trans _ _ _ Hc Hb Ha Hbc Hab).
Qed.

Lemma StronglySorted_app_inv {A} (R : A -> A -> Prop) (l1 l2 : list A) :
  StronglySorted R (l1 ++ l2) ->
  forall a b, In a l1 -> In b l2 -> R a b.
Proof.
  induction l1 as [| x l1 IH]; cbn [app]; intros H a b Ha Hb; [destruct Ha |].
  inversion H as [| ? ? Hs Hall]; subst.
  destruct Ha as [<- | Ha]; [| now apply IH].
  rewrite Forall_forall in Hall. apply Hall, in_or_app. now right.
Qed.

(** X16.  The chart "Top 10" shows at most ten features, and they are the
    ones with the highest scores: together with the rows it leaves out it
    is a rearrangement of all (feature, score) pairs, it is in descending
    order, and no row left out has a higher score than a row shown.  With
    the eleven columns of the full schema exactly one feature is left
    out. *)
Theorem chart_shows_the_highest_scores
        {K : Sklearn} (feature_columns : list string) (model : estimator)
        (chart : list (string * float)) :
  importance_chart feature_columns model = inr chart ->
  exists omitted,
    Permutation (chart ++ omitted)
                (combine feature_columns (feature_importances_ model)) /\
    List.length chart = Nat.min 10 (List.length feature_columns) /\
    List.length omitted = (List.length feature_columns - 10)%nat /\
    StronglySorted (fun a b => precedes a b = true) chart /\
    forall a b, In a chart -> In b omitted -> precedes a b = true.
Proof.
  unfold importance_chart, feature_importance, data_frame, head.
  destruct (Nat.eqb (List.length feature_columns)
                    (List.length (feature_importances_ model))) eqn:Hlen;
    [| discriminate].
  apply Nat.eqb_eq in Hlen. cbn [bind ret]. intros H.
  set (rows := combine feature_columns (feature_importances_ model)) in *.
  set (ranking := sort_values_descending rows) in *.
  assert (Hchart : firstn 10 ranking = chart)
    by exact (f_equal (fun r => match r with
                                | inr c => c
                                | inl _ => chart
                                end) H).
  clear H. subst chart.
  assert (Hperm : Permutation ranking rows)
    by apply sort_values_descending_perm.
  assert (Hsorted : StronglySorted (fun a b => precedes a b = true) ranking).
  { apply Sorted_StronglySorted; [| apply sort_values_descending_sorted].
    intros a b c. apply precedes_trans. }
  assert (Hl : List.length ranking = List.length feature_columns).
  { rewrite (Permutation_length Hperm). subst rows.
    rewrite length_combine, <- Hlen. apply Nat.min_id. }
  exists (skipn 10 ranking). rewrite firstn_skipn.
  rewrite <- (firstn_skipn 10 ranking) in Hsorted.
  split; [exact Hperm |].
  split; [now rewrite length_firstn, Hl |].
  split; [now rewrite length_skipn, Hl |].
  split.
  - clear Hperm Hl. revert Hsorted.
    generalize (firstn 10 ranking) (skipn 10 ranking).
    induction l as [| x l IH]; intros l0 H; [constructor |].
    cbn [app] in H. inversion H as [| ? ? Hs Hall]; subst.
    constructor; [now apply IH with l0 |].
    rewrite Forall_forall in Hall |- *. intros y Hy.
    apply Hall, in_or_app. now left.
  - now apply StronglySorted_app_inv.
Qed.

Lemma chart_shows_the_highest_scores_witness :
  exists omitted,
    Permutation
      ([ ("vehicle_age", lit 5 1); ("distance", lit 375 3);
         ("traffic_level", lit 125 3) ] ++ omitted)
      (combine ["distance"; "vehicle_age"; "traffic_level"]
               (@feature_importances_ Instances.checking_sklearn
                  ["distance"; "vehicle_age"; "traffic_level"])) /\
    List.length [ ("vehicle_age", lit 5 1); ("distance", lit 375 3);
                  ("traffic_level", lit 125 3) ]
    = Nat.min 10 (List.length ["distance"; "vehicle_age"; "traffic_level"]) /\
    List.length omitted
    = (List.length ["distance"; "vehicle_age"; "traffic_level"] - 10)%nat /\
    StronglySorted (fun a b => precedes a b = true)
                   [ ("vehicle_age", lit 5 1); ("distance", lit 375 3);
                     ("traffic_level", lit 125 3) ] /\
    forall a b,
      In a [ ("vehicle_age", lit 5 1); ("distance", lit 375 3);
             ("traffic_level", lit 125 3) ] ->
      In b omitted -> precedes a b = true.
Proof.
  apply (@chart_shows_the_highest_scores Instances.checking_sklearn
           ["distance"; "vehicle_age"; "traffic_level"]
           ["distance"; "vehicle_age"; "traffic_level"]).
  reflexivity.
Defined.
